(** * AIND-Recognizer: model selectors and recogniser

    A shallow embedding of [my_model_selectors.py] and [my_recognizer.py].

    - Python floats are IEEE binary64 values: Rocq's primitive [float], with
      [<?] for the comparisons the code performs and [nan], [infinity],
      [neg_infinity] for the special values.
    - The trainer ([GaussianHMM(...).fit]), the scorer ([model.score]) and the
      numpy, scikit-learn and [asl_utils] helpers are external to the two
      source files; they are the fields of the class [Externals].
    - Exceptions are explicit ([outcome]); the class attribute
      [SelectorDIC.result_dict] and the number of trainer calls form the
      [World] threaded through a small state-and-exception monad. *)

From Stdlib Require Import ZArith Floats Lia Bool.
From stdpp Require Import gmap strings list fin_maps.

Open Scope Z_scope.

(** ** Python floats *)

Module PyFloat.

(** [float(z)] for a Python integer: round to nearest, ties to even.  (Past
    the binary64 range CPython raises [OverflowError]; this conversion
    saturates.  Parameter counts of that size are out of every trainer's
    reach.) *)
Definition float_of_Z (z : Z) : float :=
  SF2Prim (binary_normalize prec emax z 0 false).

(** Python's [a > b]. *)
Definition gtb (a b : float) : bool := (b <? a)%float.

(** Python's [a >= b]. *)
Definition geb (a b : float) : bool := (b <=? a)%float.

End PyFloat.

(** ** Python values *)

(** A Python string object: its text, and a tag telling apart distinct
    objects that hold the same text.  Dictionaries hash and compare keys by
    text ([==]); the operator [is] compares objects. *)
Record str := Str { text : string; ident : nat }.

#[global] Instance str_eq_dec : EqDecision str.
Proof. solve_decision. Defined.

(** [a is b] *)
Definition py_is (a b : str) : bool := bool_decide (a = b).

(** A dictionary with string keys, in insertion order. *)
Definition pydict (V : Type) : Type := list (str * V).

(** [for k in d] *)
Definition dict_keys {V} (d : pydict V) : list str := d.*1.

(** [d[k]]; [None] stands for [KeyError]. *)
Fixpoint dict_get {V} (d : pydict V) (k : str) : option V :=
  match d with
  | [] => None
  | (k', v) :: d' => if bool_decide (text k' = text k) then Some v else dict_get d' k
  end.

(** [range(lo, hi)] *)
Definition range (lo hi : Z) : list Z := seqZ lo (hi - lo).

(** [len(l)] *)
Definition len {A} (l : list A) : Z := Z.of_nat (length l).

(** One observation frame (a feature vector), one sequence of frames. *)
Definition Frame : Type := list float.
Definition Sequence : Type := list Frame.

(** ** External collaborators *)

(** Everything the two source files import.  [None] from [fit] or [score]
    stands for an exception raised inside the library. *)
Class Externals := {
  (** a trained [GaussianHMM] *)
  Model : Type;
  (** [GaussianHMM(n_components=n, covariance_type="diag", n_iter=1000,
      random_state=rs, verbose=False).fit(X, lengths)] *)
  fit : Z -> Z -> list Frame -> list Z -> option Model;
  (** [model.score(X, lengths)] *)
  score : Model -> list Frame -> list Z -> option float;
  (** [np.log] at an integer *)
  np_log : Z -> float;
  (** [np.mean], [np.average] of a list of floats *)
  np_mean : list float -> float;
  np_average : list float -> float;
  (** [KFold(k).split(sequences)]: the (train, test) index lists *)
  KFold_split : Z -> list Sequence -> list (list nat * list nat);
  (** [asl_utils.combine_sequences(indices, sequences)] *)
  combine_sequences : list nat -> list Sequence -> list Frame * list Z
}.

(** [asl_data.SinglesData], as far as [recognize] uses it. *)
Record SinglesData := {
  num_items : Z;
  get_item_Xlengths : Z -> list Frame * list Z
}.

(** The attributes set by [ModelSelector.__init__]. *)
Record ModelSelector := {
  words : pydict (list Sequence);
  hwords : pydict (list Frame * list Z);
  sequences : list Sequence;
  X : list Frame;
  lengths : list Z;
  this_word : str;
  n_constant : Z;
  min_n_components : Z;
  max_n_components : Z;
  random_state : Z;
  verbose : bool
}.

(** [ModelSelector.__init__]; both dictionary lookups may raise [KeyError]. *)
Definition init (all_word_sequences : pydict (list Sequence))
    (all_word_Xlengths : pydict (list Frame * list Z)) (this_word : str)
    (n_constant min_n_components max_n_components random_state : Z)
    (verbose : bool) : option ModelSelector :=
  sequences ← dict_get all_word_sequences this_word;
  '(X, lengths) ← dict_get all_word_Xlengths this_word;
  Some {| words := all_word_sequences; hwords := all_word_Xlengths;
          sequences := sequences; X := X; lengths := lengths;
          this_word := this_word; n_constant := n_constant;
          min_n_components := min_n_components;
          max_n_components := max_n_components;
          random_state := random_state; verbose := verbose |}.

(** ** Exceptions *)

Inductive exn :=
| KeyError | IndexError | AttributeError | UnboundLocalError
| LibraryError (* raised inside hmmlearn *).

Inductive outcome (A : Type) :=
| Return (a : A)
| Raise (e : exn).
Arguments Return {A} a.
Arguments Raise {A} e.

(** What a loop body that may [break] hands back: the local variables, and
    whether the loop goes on. *)
Inductive flow (A : Type) :=
| Next (a : A)
| Break (a : A).
Arguments Next {A} a.
Arguments Break {A} a.

(** ** The state-and-exception monad *)

Section Program.
Context `{Ext : Externals}.

(** The process-wide state the selectors touch: the class attribute
    [SelectorDIC.result_dict] ([None] until the first [prepare]), keyed by
    [(word, n)], and the number of calls made to the trainer so far. *)
Record World := {
  result_dict : option (gmap (string * Z) (option Model * float));
  fit_calls : nat
}.

Definition M (A : Type) : Type := World -> outcome A * World.

Definition ret {A} (a : A) : M A := fun w => (Return a, w).

Definition bind {A B} (m : M A) (k : A -> M B) : M B :=
  fun w => match m w with
           | (Return a, w') => k a w'
           | (Raise e, w') => (Raise e, w')
           end.

Definition raise {A} (e : exn) : M A := fun w => (Raise e, w).

(** [try: m  except: h] with a bare [except], which catches everything. *)
Definition try_except {A} (m h : M A) : M A :=
  fun w => match m w with
           | (Return a, w') => (Return a, w')
           | (Raise _, w') => h w'
           end.

(** A lookup that raises [e] when it finds nothing. *)
Definition or_raise {A} (e : exn) (o : option A) : M A :=
  match o with
  | Some a => ret a
  | None => raise e
  end.

#[global] Instance M_ret : MRet M := @ret.
#[global] Instance M_bind : MBind M := fun A B k m => bind m k.

(** [for x in l: body], threading the local variables [a]. *)
Fixpoint for_ {A B} (l : list B) (body : B -> A -> M A) (a : A) : M A :=
  match l with
  | [] => ret a
  | x :: l' => a' ← body x a; for_ l' body a'
  end.

(** A loop whose body may [break]. *)
Fixpoint for_break {A B} (l : list B) (body : B -> A -> M (flow A)) (a : A) : M A :=
  match l with
  | [] => ret a
  | x :: l' =>
      r ← body x a;
      match r with
      | Next a' => for_break l' body a'
      | Break a' => ret a'
      end
  end.

(** The trainer: one more call counted, an exception when it fails. *)
Definition GaussianHMM_fit (n rs : Z) (X : list Frame) (lengths : list Z) : M Model :=
  fun w => (match fit n rs X lengths with
            | Some m => Return m
            | None => Raise LibraryError
            end,
            {| result_dict := result_dict w; fit_calls := S (fit_calls w) |}).

(** [model.score(X, lengths)]; on [None] the attribute lookup fails. *)
Definition method_score (model : option Model) (X : list Frame) (lengths : list Z) : M float :=
  match model with
  | None => raise AttributeError
  | Some m => or_raise LibraryError (score m X lengths)
  end.

Definition get_result_dict : M (option (gmap (string * Z) (option Model * float))) :=
  fun w => (Return (result_dict w), w).

Definition set_result_dict (d : gmap (string * Z) (option Model * float)) : M unit :=
  fun w => (Return tt, {| result_dict := Some d; fit_calls := fit_calls w |}).

(** ** my_model_selectors.py *)

(** [ModelSelector.base_model].  The [verbose] printing has no effect on the
    result and is left out. *)
Definition base_model (self : ModelSelector) (num_states : Z) : M (option Model) :=
  try_except
    (hmm_model ← GaussianHMM_fit num_states (random_state self) (X self) (lengths self);
     ret (Some hmm_model))
    (ret None).

(** [SelectorConstant.select] *)
Definition SelectorConstant_select (self : ModelSelector) : M (option Model) :=
  let best_num_components := n_constant self in
  base_model self best_num_components.

(** [len(self.X[0])] *)
Definition len_first (X : list Frame) : M Z :=
  f ← or_raise IndexError (head X); ret (len f).

(** The body of the loop of [SelectorBIC.select]; the local variables are
    [(min_score, min_model)]. *)
Definition SelectorBIC_body (self : ModelSelector) (n : Z)
    (locals : float * option Model) : M (float * option Model) :=
  let '(min_score, min_model) := locals in
  try_except
    (model ← base_model self n;
     score ← method_score model (X self) (lengths self);
     n_features ← len_first (X self);
     let transition_numbers := n * (n - 1) in
     let n_params := transition_numbers + 2 * n_features * n in
     let logN := np_log (len (X self)) in
     let current_bic :=
       (PyFloat.float_of_Z (-2) * score + PyFloat.float_of_Z n_params * logN)%float in
     if (current_bic <? min_score)%float
     then ret (current_bic, model)
     else ret (min_score, min_model))
    (ret (min_score, min_model)).

Definition SelectorBIC_loop (self : ModelSelector) : M (float * option Model) :=
  for_ (range (min_n_components self) (max_n_components self + 1))
       (SelectorBIC_body self) (infinity, None).

(** [SelectorBIC.select] *)
Definition SelectorBIC_select (self : ModelSelector) : M (option Model) :=
  '(min_score, min_model) ← SelectorBIC_loop self;
  match min_model with
  | None => base_model self (n_constant self)
  | Some _ => ret min_model
  end.

(** [SelectorDIC.prepare], one (n, w) step of the nested loops.  The lookup
    [self.hwords[w]] is outside the [try]: its [KeyError] escapes.  The class
    attribute is bound to the very dictionary the loop goes on filling, so
    each insertion is visible through it; the model writes it through. *)
Definition SelectorDIC_prepare_step (self : ModelSelector) (n : Z) (w : str)
    (result_dict : gmap (string * Z) (option Model * float))
  : M (gmap (string * Z) (option Model * float)) :=
  '(X, lengths) ← or_raise KeyError (dict_get (hwords self) w);
  entry ← try_except
            (word_model ← GaussianHMM_fit n (random_state self) X lengths;
             word_score ← method_score (Some word_model) X lengths;
             ret (Some word_model, word_score))
            (ret (None, neg_infinity));
  let result_dict := <[(text w, n) := entry]> result_dict in
  _ ← set_result_dict result_dict;
  ret result_dict.

(** [SelectorDIC.prepare] *)
Definition SelectorDIC_prepare (self : ModelSelector)
  : M (gmap (string * Z) (option Model * float)) :=
  cached ← get_result_dict;
  match cached with
  | Some d => ret d
  | None =>
      for_ (range (min_n_components self) (max_n_components self + 1))
           (fun n => for_ (dict_keys (words self)) (SelectorDIC_prepare_step self n))
           ∅
  end.

(** [[w for w in self.words if w is not self.this_word]] *)
Definition others (self : ModelSelector) : list str :=
  List.filter (fun w => negb (py_is w (this_word self))) (dict_keys (words self)).

(** [[dict[(w, n)][1] for w in others if dict[(w, n)][0] is not None]]; a
    missing key raises [KeyError]. *)
Fixpoint other_scores (dict : gmap (string * Z) (option Model * float)) (n : Z)
    (others : list str) : M (list float) :=
  match others with
  | [] => ret []
  | w :: others' =>
      e ← or_raise KeyError (dict !! (text w, n));
      rest ← other_scores dict n others';
      ret (match e.1 with Some _ => e.2 :: rest | None => rest end)
  end.

(** The body of the loop of [SelectorDIC.select]; the local variables are
    [(max_dic, max_model)]. *)
Definition SelectorDIC_body (self : ModelSelector)
    (dict : gmap (string * Z) (option Model * float)) (n : Z)
    (locals : float * option Model) : M (float * option Model) :=
  let '(max_dic, max_model) := locals in
  try_except
    (let current_word_key := (text (this_word self), n) in
     e ← or_raise KeyError (dict !! current_word_key);
     let current_word_score := e.2 in
     scores ← other_scores dict n (others self);
     let dic := (current_word_score - np_mean scores)%float in
     if PyFloat.gtb dic max_dic
     then ret (dic, e.1)
     else ret (max_dic, max_model))
    (ret (max_dic, max_model)).

Definition SelectorDIC_loop (self : ModelSelector)
    (dict : gmap (string * Z) (option Model * float)) : M (float * option Model) :=
  for_ (range (min_n_components self) (max_n_components self + 1))
       (SelectorDIC_body self dict) (neg_infinity, None).

(** [SelectorDIC.select] *)
Definition SelectorDIC_select (self : ModelSelector) : M (option Model) :=
  dict ← SelectorDIC_prepare self;
  '(max_dic, max_model) ← SelectorDIC_loop self dict;
  match max_model with
  | None => base_model self (n_constant self)
  | Some _ => ret max_model
  end.

(** One fold of [SelectorCV.select]; the local variables are
    [(res, word_model)], [word_model] being [None] while it is unbound.  The
    source has one [try] around both calls: [word_model] is assigned as soon
    as [fit] returns and stays assigned when [score] then raises. *)
Definition SelectorCV_fold (self : ModelSelector) (n : Z) (split : list nat * list nat)
    (locals : list float * option Model) : M (list float * option Model) :=
  let '(res, word_model) := locals in
  let '(train, test) := split in
  let '(X_test, lengths_test) := combine_sequences test (sequences self) in
  let '(X_train, lengths_train) := combine_sequences train (sequences self) in
  try_except
    (fitted ← GaussianHMM_fit n (random_state self) X_train lengths_train;
     try_except
       (word_score ← method_score (Some fitted) X_test lengths_test;
        ret (res ++ [word_score], Some fitted))
       (ret (res, Some fitted)))
    (ret (res, word_model)).

(** The body of the outer loop of [SelectorCV.select]; the local variables
    are [(max_cv, max_model, word_model)]. *)
Definition SelectorCV_body (self : ModelSelector) (n : Z)
    (locals : float * option Model * option Model)
  : M (flow (float * option Model * option Model)) :=
  let '(max_cv, max_model, word_model) := locals in
  let spl := 3 in
  let res := [] in
  if len (sequences self) <? spl
  then ret (Break (max_cv, max_model, word_model))
  else
    '(res, word_model) ← for_ (KFold_split spl (sequences self))
                              (SelectorCV_fold self n) (res, word_model);
    if 0 <? len res
    then
      let avg := np_average res in
      if PyFloat.gtb avg max_cv
      then
        chosen ← or_raise UnboundLocalError word_model;
        ret (Next (avg, Some chosen, word_model))
      else ret (Next (max_cv, max_model, word_model))
    else ret (Next (max_cv, max_model, word_model)).

Definition SelectorCV_loop (self : ModelSelector) : M (float * option Model * option Model) :=
  for_break (range (min_n_components self) (max_n_components self + 1))
            (SelectorCV_body self) (neg_infinity, None, None).

(** [SelectorCV.select] *)
Definition SelectorCV_select (self : ModelSelector) : M (option Model) :=
  '(max_cv, max_model, _) ← SelectorCV_loop self;
  match max_model with
  | None => base_model self (n_constant self)
  | Some _ => ret max_model
  end.

(** The four subclasses of [ModelSelector]; [select] dispatches on them. *)
Inductive Strategy := Constant | BIC | DIC | CV.

Definition select (strategy : Strategy) (self : ModelSelector) : M (option Model) :=
  match strategy with
  | Constant => SelectorConstant_select self
  | BIC => SelectorBIC_select self
  | DIC => SelectorDIC_select self
  | CV => SelectorCV_select self
  end.

(** ** my_recognizer.py *)

(** The body of the inner loop of [recognize]; the local variables are
    [(current_word, current_word_prob, wp)]. *)
Definition recognize_word (models : pydict (option Model)) (X : list Frame)
    (lengths : list Z) (w : str) (locals : option str * float * gmap string float)
  : M (option str * float * gmap string float) :=
  let '(current_word, current_word_prob, wp) := locals in
  let word := w in
  word_model ← or_raise KeyError (dict_get models w);
  try_except
    (word_score ← method_score word_model X lengths;
     let wp := <[text word := word_score]> wp in
     if PyFloat.gtb word_score current_word_prob
     then ret (Some word, word_score, wp)
     else ret (current_word, current_word_prob, wp))
    (ret (current_word, current_word_prob, <[text word := neg_infinity]> wp)).

(** The inner loop, for one test item. *)
Definition recognize_item (models : pydict (option Model)) (X : list Frame)
    (lengths : list Z) : M (option str * float * gmap string float) :=
  for_ (dict_keys models) (recognize_word models X lengths) (None, neg_infinity, ∅).

(** The body of the outer loop; the local variables are
    [(probabilities, guesses)]. *)
Definition recognize_body (models : pydict (option Model)) (test_set : SinglesData)
    (n : Z) (locals : list (gmap string float) * list (option str))
  : M (list (gmap string float) * list (option str)) :=
  let '(probabilities, guesses) := locals in
  let '(X, lengths) := get_item_Xlengths test_set n in
  '(current_word, _, wp) ← recognize_item models X lengths;
  ret (probabilities ++ [wp], guesses ++ [current_word]).

(** [recognize] *)
Definition recognize (models : pydict (option Model)) (test_set : SinglesData)
  : M (list (gmap string float) * list (option str)) :=
  for_ (range 0 (num_items test_set)) (recognize_body models test_set) ([], []).

End Program.

(** ** Functions used to state the properties *)

Section Statements.
Context `{Ext : Externals}.

(** The score table entry the recogniser is to hold for word [k]: the
    log-likelihood its model gives the item, negative infinity when the
    scoring fails. *)
Definition item_score (models : pydict (option Model)) (X : list Frame)
    (lengths : list Z) (k : str) : float :=
  match dict_get models k with
  | Some (Some m) =>
      match score m X lengths with
      | Some s => s
      | None => neg_infinity
      end
  | _ => neg_infinity
  end.

(** Scoring item [(X, lengths)] with the model of word [k] fails. *)
Definition scoring_fails (models : pydict (option Model)) (X : list Frame)
    (lengths : list Z) (k : str) : Prop :=
  match dict_get models k with
  | Some (Some m) => score m X lengths = None
  | _ => True
  end.

(** What one pass of the inner loop of [recognize] does to its local
    variables. *)
Definition recognize_word_step (models : pydict (option Model)) (X : list Frame)
    (lengths : list Z) (k : str) (locals : option str * float * gmap string float)
  : option str * float * gmap string float :=
  let '(current_word, current_word_prob, wp) := locals in
  match dict_get models k with
  | Some (Some m) =>
      match score m X lengths with
      | Some s =>
          if PyFloat.gtb s current_word_prob
          then (Some k, s, <[text k := s]> wp)
          else (current_word, current_word_prob, <[text k := s]> wp)
      | None => (current_word, current_word_prob, <[text k := neg_infinity]> wp)
      end
  | _ => (current_word, current_word_prob, <[text k := neg_infinity]> wp)
  end.

(** One step of a search for the best candidate: [best] is the running optimum
    and the model kept with it; the candidate [c], when there is one,
    replaces it when its criterion is strictly [better]. *)
Definition pick (better : float -> float -> bool) (best : float * option Model)
    (c : option (float * option Model)) : float * option Model :=
  match c with
  | Some (b, v) => if better b best.1 then (b, v) else best
  | None => best
  end.

(** [r] is the outcome of a search over [cands] that starts from the
    sentinel [init] and lets the first-encountered optimum win ties: either
    no candidate is strictly better than the sentinel and nothing is kept, or
    [r] is the candidate at some position [i], no candidate is strictly
    better than it, and none before position [i] is as good. *)
Definition first_best (better better_eq : float -> float -> bool) (init : float)
    (cands : list (option (float * option Model))) (r : float * option Model) : Prop :=
  (r = (init, None) /\
   forall j b v, cands !! j = Some (Some (b, v)) -> better b init = false)
  \/
  (exists i : nat,
     cands !! i = Some (Some r) /\
     better r.1 init = true /\
     (forall j b v, cands !! j = Some (Some (b, v)) -> better b r.1 = false) /\
     (forall j b v, (j < i)%nat -> cands !! j = Some (Some (b, v)) ->
                    better_eq b r.1 = false)).

(** The criterion of §4.3 as the claim words it:
    [BIC = -2*logL + (n*(n-1) + 2*F*n) * ln(N)]. *)
Definition BIC_formula (logL : float) (n F N : Z) : float :=
  (PyFloat.float_of_Z (-2) * logL
   + PyFloat.float_of_Z (n * (n - 1) + 2 * F * n) * np_log N)%float.

(** The BIC candidate at [n]: the model trained at [n] on the word's data and
    its criterion, when training and scoring both succeed. *)
Definition BIC_candidate (self : ModelSelector) (n : Z) : option (float * option Model) :=
  model ← fit n (random_state self) (X self) (lengths self);
  logL ← score model (X self) (lengths self);
  frame ← head (X self);
  Some (BIC_formula logL n (len frame) (len (X self)), Some model).

(** The world after [k] more trainer calls. *)
Definition more_fit_calls (k : nat) (w : World) : World :=
  {| result_dict := result_dict w; fit_calls := (k + fit_calls w)%nat |}.

(** One fold of the cross-validation at [n]: the held-out log-likelihood,
    when training on the held-in sequences and scoring the held-out ones
    both succeed. *)
Definition CV_fold_score (self : ModelSelector) (n : Z) (split : list nat * list nat)
  : option float :=
  let X_train := (combine_sequences split.1 (sequences self)).1 in
  let lengths_train := (combine_sequences split.1 (sequences self)).2 in
  let X_test := (combine_sequences split.2 (sequences self)).1 in
  let lengths_test := (combine_sequences split.2 (sequences self)).2 in
  model ← fit n (random_state self) X_train lengths_train;
  score model X_test lengths_test.

(** [model] was trained at [n] on the held-in sequences of one of the folds. *)
Definition CV_fold_model (self : ModelSelector) (n : Z) (model : Model) : Prop :=
  exists split,
    split ∈ KFold_split 3 (sequences self) /\
    fit n (random_state self) (combine_sequences split.1 (sequences self)).1
        (combine_sequences split.1 (sequences self)).2 = Some model.

(** What one fold does to the local variables [(res, word_model)]. *)
Definition CV_fold_step (self : ModelSelector) (n : Z) (split : list nat * list nat)
    (locals : list float * option Model) : list float * option Model :=
  match fit n (random_state self) (combine_sequences split.1 (sequences self)).1
            (combine_sequences split.1 (sequences self)).2 with
  | None => locals
  | Some m =>
      match score m (combine_sequences split.2 (sequences self)).1
                  (combine_sequences split.2 (sequences self)).2 with
      | None => (locals.1, Some m)
      | Some s => (locals.1 ++ [s], Some m)
      end
  end.

(** The cross-validation candidate at [n]: the average of the held-out
    log-likelihoods of the folds that succeeded, and the model of the last
    fold whose training succeeded; none when every fold failed. *)
Definition CV_candidate (self : ModelSelector) (n : Z) : option (float * option Model) :=
  let folds := KFold_split 3 (sequences self) in
  let res := omap (CV_fold_score self n) folds in
  if 0 <? len res
  then Some (np_average res, (foldl (fun a split => CV_fold_step self n split a) ([], None) folds).2)
  else None.

(** Two worlds with the same [SelectorDIC.result_dict]; they may differ in the
    number of trainer calls made so far. *)
Definition same_dict (w w' : World) : Prop := result_dict w = result_dict w'.

(** A computation that reads nothing of the world but the class attribute:
    from worlds with the same attribute it has the same outcome and leaves the
    same attribute. *)
Definition respects {A} (m : M A) : Prop :=
  forall w w', same_dict w w' -> (m w).1 = (m w').1 /\ same_dict (m w).2 (m w').2.

(** A computation that leaves the class attribute alone. *)
Definition keeps_dict {A} (m : M A) : Prop :=
  forall w, result_dict (m w).2 = result_dict w.

(** The candidate search of each strategy, up to the point where [select]
    tests whether a model was kept. *)
Definition search (strategy : Strategy) (self : ModelSelector) : M (option Model) :=
  match strategy with
  | Constant => ret None
  | BIC => locals ← SelectorBIC_loop self; ret locals.2
  | DIC => dict ← SelectorDIC_prepare self;
           locals ← SelectorDIC_loop self dict; ret locals.2
  | CV => locals ← SelectorCV_loop self; ret locals.1.2
  end.

(** [SelectorDIC.select] after the call of [prepare] has returned [dict]. *)
Definition SelectorDIC_rest (self : ModelSelector)
    (dict : gmap (string * Z) (option Model * float)) : M (option Model) :=
  '(max_dic, max_model) ← SelectorDIC_loop self dict;
  match max_model with
  | None => base_model self (n_constant self)
  | Some _ => ret max_model
  end.

(** The entries of the cache the list comprehension of [SelectorDIC.select]
    reads, for the words [ws]; [None] when a key is missing. *)
Fixpoint cached_scores (dict : gmap (string * Z) (option Model * float)) (n : Z)
    (ws : list str) : option (list float) :=
  match ws with
  | [] => Some []
  | w :: ws' =>
      e ← dict !! (text w, n);
      rest ← cached_scores dict n ws';
      Some (match e.1 with Some _ => e.2 :: rest | None => rest end)
  end.

(** The DIC candidate at [n] as the code rates it: the target word's cached
    score minus the mean of the cached scores of [others self]. *)
Definition DIC_candidate (self : ModelSelector)
    (dict : gmap (string * Z) (option Model * float)) (n : Z)
  : option (float * option Model) :=
  e ← dict !! (text (this_word self), n);
  scores ← cached_scores dict n (others self);
  Some ((e.2 - np_mean scores)%float, e.1).

(** DIC(n) as the claim words it: the target word's cached log-likelihood at
    [n] minus the mean of the cached log-likelihoods at [n] of all the words
    different from the target word whose entry is not the failure
    sentinel. *)
Definition DIC_claimed (self : ModelSelector)
    (dict : gmap (string * Z) (option Model * float)) (n : Z) : option float :=
  e ← dict !! (text (this_word self), n);
  scores ← cached_scores dict n
             (List.filter (fun w => negb (bool_decide (text w = text (this_word self))))
                          (dict_keys (words self)));
  Some (e.2 - np_mean scores)%float.

End Statements.

(** ** Further functions used to state properties *)

Section MoreStatements.
Context `{Ext : Externals}.

(** The log-likelihood the model of word [k] gives the item, when the
    scoring succeeds. *)
Definition word_score (models : pydict (option Model)) (X : list Frame)
    (lengths : list Z) (k : str) : option float :=
  match dict_get models k with
  | Some (Some m) => score m X lengths
  | _ => None
  end.

(** One step of a search that keeps a value of any type with the running
    optimum. *)
Definition keep {V} (better : float -> float -> bool) (best : float * option V)
    (c : option (float * V)) : float * option V :=
  match c with
  | Some (b, v) => if better b best.1 then (b, Some v) else best
  | None => best
  end.

(** The cache entry [prepare] writes for word [k] at [n] states: the model
    and its score on the word's own data, the failure sentinel when training
    or scoring fails. *)
Definition prepared_entry (self : ModelSelector) (n : Z) (k : str)
  : option Model * float :=
  match dict_get (hwords self) k with
  | Some (X, lengths) =>
      match fit n (random_state self) X lengths with
      | Some word_model =>
          match score word_model X lengths with
          | Some word_score => (Some word_model, word_score)
          | None => (None, neg_infinity)
          end
      | None => (None, neg_infinity)
      end
  | None => (None, neg_infinity)
  end.

(** The cache after the inner loop of [prepare] has gone through the words
    [ks] at [n] states, and after the outer loop has gone through the state
    counts [ns]. *)
Definition filled_words (self : ModelSelector) (n : Z) (ks : list str)
    (d : gmap (string * Z) (option Model * float))
  : gmap (string * Z) (option Model * float) :=
  foldl (fun d k => <[(text k, n) := prepared_entry self n k]> d) d ks.

Definition filled (self : ModelSelector) (ns : list Z) (ks : list str)
    (d : gmap (string * Z) (option Model * float))
  : gmap (string * Z) (option Model * float) :=
  foldl (fun d n => filled_words self n ks d) d ns.

(** The world the loops of [prepare] leave after [steps] steps that ended
    with the cache [d]: untouched when no step was run. *)
Definition prepared_world_after (steps : nat) (d : gmap (string * Z) (option Model * float))
    (w : World) : World :=
  match steps with
  | O => w
  | S _ => {| result_dict := Some d; fit_calls := (steps + fit_calls w)%nat |}
  end.

(** A cache in which every entry without a model holds the sentinel score. *)
Definition sentinel_on_failure (d : gmap (string * Z) (option Model * float)) : Prop :=
  forall key s, d !! key = Some (None, s) -> s = neg_infinity.

(** The training data of a fold. *)
Definition fold_fit (self : ModelSelector) (n : Z) (split : list nat * list nat)
  : option Model :=
  fit n (random_state self) (combine_sequences split.1 (sequences self)).1
      (combine_sequences split.1 (sequences self)).2.

End MoreStatements.

(** ** Test doubles *)

(** A rigged trainer and scorer, and small corpora, on which the selectors
    and the recogniser can be run. *)
Module Rigged.

(** A trained model remembers its state count and its training frames. *)
Record model := { states : Z; trained_on : list Frame }.

(** Training fails when there are fewer frames than states. *)
Definition rigged_fit (n rs : Z) (X : list Frame) (lengths : list Z) : option model :=
  if len X <? n then None else Some {| states := n; trained_on := X |}.

(** The log-likelihood a model of [n] states gives to [X] is written in [X]
    itself: the first feature of frame [n].  Scoring fails when that frame
    is missing or empty. *)
Definition rigged_score (m : model) (X : list Frame) (lengths : list Z) : option float :=
  match X !! Z.to_nat (states m) with
  | Some (s :: _) => Some s
  | _ => None
  end.

(** Sum over count; [nan] on the empty list, as numpy answers. *)
Definition naive_mean (l : list float) : float :=
  (foldl PrimFloat.add 0 l / PyFloat.float_of_Z (len l))%float.

(** A stand-in for the logarithm: the binary logarithm, rounded down. *)
Definition floor_log2 (z : Z) : float := PyFloat.float_of_Z (Z.log2 z).

(** Fold [i] of [k] holds out the sequences whose index is [i] modulo [k]. *)
Definition modular_split (k : Z) (seqs : list Sequence) : list (list nat * list nat) :=
  let idx := seq 0 (length seqs) in
  (fun i => (List.filter (fun j => negb (j mod Z.to_nat k =? i)%nat) idx,
             List.filter (fun j => (j mod Z.to_nat k =? i)%nat) idx))
    <$> seq 0 (Z.to_nat k).

(** The chosen sequences end to end, with their lengths. *)
Definition concat_sequences (idx : list nat) (seqs : list Sequence) : list Frame * list Z :=
  let chosen := omap (fun i => seqs !! i) idx in
  (concat chosen, len <$> chosen).

Definition externals : Externals := {|
  Model := model;
  fit := rigged_fit;
  score := rigged_score;
  np_log := floor_log2;
  np_mean := naive_mean;
  np_average := naive_mean;
  KFold_split := modular_split;
  combine_sequences := concat_sequences
|}.

(** A process in which no selector has run yet. *)
Definition fresh : @World externals := {| result_dict := None; fit_calls := 0 |}.

Definition word_A : str := Str "A" 0.
Definition word_B : str := Str "B" 0.

(** Two models and one test item without frames: neither model can score it. *)
Definition two_models : pydict (option model) :=
  [(word_A, Some {| states := 2; trained_on := [] |});
   (word_B, Some {| states := 3; trained_on := [] |})].

Definition empty_item : SinglesData :=
  {| num_items := 1; get_item_Xlengths := fun _ => ([], []) |}.

(** A corpus of three words.  Frame [n] of a word's data is the log-likelihood
    its [n]-state model gets: -30 and -10 for A at 2 and 3 states, -12 for B
    at 2 states (B cannot be scored at 3), and D has a single frame, too few
    to train anything on. *)
Definition word_D : str := Str "D" 0.

Definition sequences_A : list Sequence := [[[0]; [0]]; [[-30]; [-10]]]%float.
Definition sequences_B : list Sequence := [[[0]; [0]; [-12]]]%float.
Definition sequences_D : list Sequence := [[[-1]]]%float.

Definition corpus_sequences : pydict (list Sequence) :=
  [(word_A, sequences_A); (word_B, sequences_B); (word_D, sequences_D)].

Definition corpus_Xlengths : pydict (list Frame * list Z) :=
  [(word_A, (concat sequences_A, [2; 2]));
   (word_B, (concat sequences_B, [3]));
   (word_D, (concat sequences_D, [1]))].

(** The selector for [this], with the fallback at 3 states, the candidates
    2 and 3, and the seed 14.  The lookups are those of [init], by text. *)
Definition selector (corpus : pydict (list Sequence))
    (Xlengths : pydict (list Frame * list Z)) (this : str) : ModelSelector :=
  {| words := corpus; hwords := Xlengths;
     sequences := default [] (dict_get corpus this);
     X := (default ([], []) (dict_get Xlengths this)).1;
     lengths := (default ([], []) (dict_get Xlengths this)).2;
     this_word := this; n_constant := 3;
     min_n_components := 2; max_n_components := 3;
     random_state := 14; verbose := false |}.

Definition selector_A : ModelSelector := selector corpus_sequences corpus_Xlengths word_A.
Definition selector_B : ModelSelector := selector corpus_sequences corpus_Xlengths word_B.
Definition selector_D : ModelSelector := selector corpus_sequences corpus_Xlengths word_D.

(** The same selector as [selector_A], its [this_word] being another string
    object with the same text. *)
Definition selector_A_copy : ModelSelector :=
  selector corpus_sequences corpus_Xlengths (Str "A" 1).

(** A word with three sequences, each a table of log-likelihoods, for the
    cross-validation: the held-out averages are -6 at 2 states and -5 at 3. *)
Definition word_C : str := Str "C" 0.

Definition sequences_C : list Sequence :=
  [[[0]; [0]; [-5]; [-7]]; [[0]; [0]; [-6]; [-4]]; [[0]; [0]; [-7]; [-4]]]%float.

Definition selector_C : ModelSelector :=
  selector [(word_C, sequences_C)] [(word_C, (concat sequences_C, [4; 4; 4]))] word_C.

(** The world after one [SelectorDIC.select] for word A in a fresh process. *)
Definition after_first_DIC : @World externals :=
  (@SelectorDIC_select externals selector_A fresh).2.

(** One test item that the model of A (2 states) scores -5 and the model of
    B (3 states) scores -3. *)
Definition one_item : SinglesData :=
  {| num_items := 1;
     get_item_Xlengths := fun _ => ([[0]; [0]; [-5]; [-3]]%float, [4]) |}.

(** A word without any frame. *)
Definition word_E : str := Str "E" 0.

Definition selector_E : ModelSelector :=
  selector [(word_E, [])] [(word_E, ([], []))] word_E.

(** The selector of word A with an empty range of candidates. *)
Definition selector_A_no_range : ModelSelector :=
  {| words := corpus_sequences; hwords := corpus_Xlengths;
     sequences := sequences_A; X := concat sequences_A; lengths := [2; 2];
     this_word := word_A; n_constant := 3;
     min_n_components := 5; max_n_components := 4;
     random_state := 14; verbose := false |}.

(** The selector of word A on a corpus whose words B and D have no data in
    [hwords]. *)
Definition selector_A_missing : ModelSelector :=
  selector corpus_sequences [(word_A, (concat sequences_A, [2; 2]))] word_A.

(** A word whose models score [nan] at 2 and at 3 states. *)
Definition word_N : str := Str "N" 0.

Definition selector_N : ModelSelector :=
  selector [(word_N, [[[0]; [0]; [nan]; [nan]]%float])]
           [(word_N, ([[0]; [0]; [nan]; [nan]]%float, [4]))] word_N.

(** A word whose models of 2 and of 3 states train and score, the score
    being negative infinity; the fallback is at 5 states, outside the range
    of candidates. *)
Definition word_I : str := Str "I" 0.

Definition table_I : list Frame := [[0]; [0]; [neg_infinity]; [neg_infinity]; [0]]%float.

Definition selector_I : ModelSelector :=
  {| words := [(word_I, [table_I])]; hwords := [(word_I, (table_I, [5]))];
     sequences := [table_I]; X := table_I; lengths := [5];
     this_word := word_I; n_constant := 5;
     min_n_components := 2; max_n_components := 3;
     random_state := 14; verbose := false |}.

(** The same with three sequences, for the cross-validation: every fold
    trains, and scores its held-out sequence negative infinity. *)
Definition word_J : str := Str "J" 0.

Definition sequences_J : list Sequence :=
  [[[0]; [0]; [neg_infinity]; [neg_infinity]];
   [[0]; [0]; [neg_infinity]; [neg_infinity]];
   [[0]; [0]; [neg_infinity]; [neg_infinity]]]%float.

Definition selector_J : ModelSelector :=
  {| words := [(word_J, sequences_J)];
     hwords := [(word_J, (concat sequences_J, [4; 4; 4]))];
     sequences := sequences_J; X := concat sequences_J; lengths := [4; 4; 4];
     this_word := word_J; n_constant := 5;
     min_n_components := 2; max_n_components := 3;
     random_state := 14; verbose := false |}.

End Rigged.
Module PyFloatFacts.
Import PyFloat.

(** *** Order facts on the specification floats *)

Ltac sf_cases :=
  repeat match goal with
         | s : bool |- _ => destruct s
         end;
  simpl in *; try discriminate; try reflexivity.

Ltac sf_order :=
  repeat match goal with
         | |- context [Pos.compare_cont Eq ?a ?b] =>
             change (Pos.compare_cont Eq a b) with (Pos.compare a b)
         | H : context [Pos.compare_cont Eq ?a ?b] |- _ =>
             change (Pos.compare_cont Eq a b) with (Pos.compare a b) in H
         end;
  repeat match goal with
         | |- context [Z.compare ?a ?b] => destruct (Z.compare_spec a b)
         | H : context [Z.compare ?a ?b] |- _ => destruct (Z.compare_spec a b)
         | |- context [Pos.compare ?a ?b] => destruct (Pos.compare_spec a b)
         | H : context [Pos.compare ?a ?b] |- _ => destruct (Pos.compare_spec a b)
         end;
  simpl in *; try discriminate; try reflexivity; try lia.

Lemma SFltb_irrefl x : SFltb x x = false.
Proof.
  unfold SFltb, SFcompare.
  destruct x as [s|s| |s m e]; sf_cases; sf_order.
Qed.

Lemma SFltb_trans x y z :
  SFltb x y = true -> SFltb y z = true -> SFltb x z = true.
Proof.
  unfold SFltb, SFcompare.
  destruct x as [sx|sx| |sx mx ex], y as [sy|sy| |sy my ey],
    z as [sz|sz| |sz mz ez]; sf_cases; intros H1 H2; sf_order.
Qed.

Lemma SFltb_leb_trans x y z :
  SFltb x y = true -> SFleb y z = true -> SFltb x z = true.
Proof.
  unfold SFltb, SFleb, SFcompare.
  destruct x as [sx|sx| |sx mx ex], y as [sy|sy| |sy my ey],
    z as [sz|sz| |sz mz ez]; sf_cases; intros H1 H2; sf_order.
Qed.

Lemma SFleb_ltb_trans x y z :
  SFleb x y = true -> SFltb y z = true -> SFltb x z = true.
Proof.
  unfold SFltb, SFleb, SFcompare.
  destruct x as [sx|sx| |sx mx ex], y as [sy|sy| |sy my ey],
    z as [sz|sz| |sz mz ez]; sf_cases; intros H1 H2; sf_order.
Qed.

(** *** The same facts on binary64 *)

Lemma ltb_irrefl (x : float) : (x <? x)%float = false.
Proof. rewrite ltb_spec. apply SFltb_irrefl. Qed.

Lemma ltb_trans (x y z : float) :
  (x <? y)%float = true -> (y <? z)%float = true -> (x <? z)%float = true.
Proof. rewrite !ltb_spec. apply SFltb_trans. Qed.

Lemma ltb_leb_trans (x y z : float) :
  (x <? y)%float = true -> (y <=? z)%float = true -> (x <? z)%float = true.
Proof. rewrite !ltb_spec, leb_spec. apply SFltb_leb_trans. Qed.

Lemma leb_ltb_trans (x y z : float) :
  (x <=? y)%float = true -> (y <? z)%float = true -> (x <? z)%float = true.
Proof. rewrite !ltb_spec, leb_spec. apply SFleb_ltb_trans. Qed.

(** Nothing is below [-inf] and nothing is above [+inf]. *)
Lemma ltb_neg_infinity (x : float) : (x <? neg_infinity)%float = false.
Proof.
  rewrite ltb_spec. unfold SFltb, SFcompare.
  change (Prim2SF neg_infinity) with (S754_infinity true).
  destruct (Prim2SF x) as [s|s| |s m e]; sf_cases.
Qed.

Lemma ltb_infinity (x : float) : (infinity <? x)%float = false.
Proof.
  rewrite ltb_spec. unfold SFltb, SFcompare.
  change (Prim2SF infinity) with (S754_infinity false).
  destruct (Prim2SF x) as [s|s| |s m e]; sf_cases.
Qed.

(** [-inf - y] is [-inf] or [nan]: never above anything. *)
Lemma ltb_neg_infinity_sub (x y : float) :
  (x <? neg_infinity - y)%float = false.
Proof.
  rewrite ltb_spec, sub_spec. unfold SFltb, SFcompare.
  change (Prim2SF neg_infinity) with (S754_infinity true).
  destruct (Prim2SF y) as [sy|sy| |sy my ey];
    destruct (Prim2SF x) as [s|s| |s m e]; sf_cases.
Qed.

(** The order facts for [>] and [>=]. *)
Lemma gtb_irrefl (x : float) : gtb x x = false.
Proof. apply ltb_irrefl. Qed.

Lemma gtb_trans (x y z : float) :
  gtb x y = true -> gtb y z = true -> gtb x z = true.
Proof. unfold gtb. intros H1 H2. eapply ltb_trans; eassumption. Qed.

Lemma geb_gtb_trans (x y z : float) :
  geb x y = true -> gtb y z = true -> gtb x z = true.
Proof. unfold gtb, geb. intros H1 H2. eapply ltb_leb_trans; eassumption. Qed.

Lemma gtb_neg_infinity_sub (x y : float) : gtb (neg_infinity - y)%float x = false.
Proof. apply ltb_neg_infinity_sub. Qed.

End PyFloatFacts.

(** * Verification *)

Section LoopFacts.
Context `{Ext : Externals}.

Lemma bind_Return {A B} (m : M A) (k : A -> M B) w a w' :
  m w = (Return a, w') -> (x ← m; k x) w = k a w'.
Proof. intros H. unfold mbind, M_bind, bind. now rewrite H. Qed.

Lemma bind_Raise {A B} (m : M A) (k : A -> M B) w e w' :
  m w = (Raise e, w') -> (x ← m; k x) w = (Raise e, w').
Proof. intros H. unfold mbind, M_bind, bind. now rewrite H. Qed.

(** A loop whose body always returns is a pair of folds: one over the local
    variables, one over the world. *)
Lemma for_pure {A B} (f : B -> A -> A) (g : B -> World -> World)
    (l : list B) (body : B -> A -> M A) (a : A) (w : World) :
  (forall x a w, x ∈ l -> body x a w = (Return (f x a), g x w)) ->
  for_ l body a w = (Return (foldl (fun a x => f x a) a l), foldl (fun w x => g x w) w l).
Proof.
  revert a w. induction l as [|x l IH]; intros a w Hbody; simpl.
  - reflexivity.
  - erewrite bind_Return by (apply Hbody; left).
    apply IH. intros y a' w' Hy. apply Hbody. now right.
Qed.

End LoopFacts.

(** ** Searches that keep the first-encountered optimum *)

Section Scan.
Context `{Ext : Externals}.
Variables better better_eq : float -> float -> bool.
Hypothesis better_irrefl : forall x, better x x = false.
Hypothesis better_trans :
  forall x y z, better x y = true -> better y z = true -> better x z = true.
Hypothesis better_eq_trans :
  forall x y z, better_eq x y = true -> better y z = true -> better x z = true.

Lemma not_better_after x y z :
  better x y = false -> better z y = true -> better x z = false.
Proof.
  intros Hxy Hzy. destruct (better x z) eqn:E; [|reflexivity].
  rewrite (better_trans _ _ _ E Hzy) in Hxy. discriminate.
Qed.

Lemma not_as_good_after x y z :
  better x y = false -> better z y = true -> better_eq x z = false.
Proof.
  intros Hxy Hzy. destruct (better_eq x z) eqn:E; [|reflexivity].
  rewrite (better_eq_trans _ _ _ E Hzy) in Hxy. discriminate.
Qed.

Lemma scan_first_best (init : float) (cands : list (option (float * option Model))) :
  first_best better better_eq init cands (foldl (pick better) (init, None) cands).
Proof.
  induction cands as [|c cands IH] using rev_ind.
  - left. split; [reflexivity|]. intros j b v Hj. now rewrite lookup_nil in Hj.
  - rewrite foldl_snoc.
    destruct (foldl (pick better) (init, None) cands) as [s m] eqn:E.
    assert (Hprev : forall j b v, cands !! j = Some (Some (b, v)) -> better b s = false).
    { destruct IH as [[[= -> ->] Hall]|(i & _ & _ & Hall & _)]; exact Hall. }
    assert (Hs : s = init \/ better s init = true).
    { destruct IH as [[[= -> ->] _]|(i & _ & Hi & _)]; [now left|now right]. }
    assert (Hsnoc : forall j (x : option (float * option Model)),
               (cands ++ [c]) !! j = Some x ->
               cands !! j = Some x \/ (j = length cands /\ x = c)).
    { intros j x Hj. apply lookup_snoc_Some in Hj as [[_ Hj]|[-> ->]]; auto. }
    destruct c as [[b v]|]; simpl.
    2:{ (* no candidate at this position *)
      destruct IH as [[Hr Hall]|(i & Hi & Hbi & Hall & Hbefore)].
      - left. split; [exact Hr|]. intros j b v Hj.
        apply Hsnoc in Hj as [Hj|[_ [=]]]. eauto.
      - right. exists i. split; [now apply lookup_app_l_Some|].
        split; [exact Hbi|]. split.
        + intros j b v Hj. apply Hsnoc in Hj as [Hj|[_ [=]]]. eauto.
        + intros j b v Hlt Hj. apply Hsnoc in Hj as [Hj|[_ [=]]]. eauto. }
    destruct (better b s) eqn:Hb.
    + (* the candidate takes over *)
      right. exists (length cands). split; [apply list_lookup_middle; reflexivity|].
      simpl. split.
      { destruct Hs as [->|Hs]; [exact Hb|]. eapply better_trans; eassumption. }
      split.
      * intros j b' v' Hj. apply Hsnoc in Hj as [Hj|[_ [= <- <-]]].
        -- eapply not_better_after; [eapply Hprev; eassumption|exact Hb].
        -- apply better_irrefl.
      * intros j b' v' Hlt Hj. apply Hsnoc in Hj as [Hj|[-> _]]; [|lia].
        eapply not_as_good_after; [eapply Hprev; eassumption|exact Hb].
    + (* the running optimum stays *)
      destruct IH as [[Hr Hall]|(i & Hi & Hbi & Hall & Hbefore)].
      * left. split; [exact Hr|]. injection Hr as -> ->.
        intros j b' v' Hj. apply Hsnoc in Hj as [Hj|[_ [= <- <-]]]; eauto.
      * right. exists i. split; [now apply lookup_app_l_Some|].
        split; [exact Hbi|]. simpl in *. split.
        -- intros j b' v' Hj. apply Hsnoc in Hj as [Hj|[_ [= <- <-]]]; eauto.
        -- intros j b' v' Hlt Hj. apply Hsnoc in Hj as [Hj|[-> _]]; eauto.
           apply lookup_lt_Some in Hi. lia.
Qed.

(** The same over the state counts [range lo hi], by state count instead of
    by position. *)
Lemma first_best_range (init : float) (lo hi : Z)
    (f : Z -> option (float * option Model)) (r : float * option Model) :
  first_best better better_eq init (f <$> range lo hi) r ->
  (r = (init, None) /\
   forall n b v, n ∈ range lo hi -> f n = Some (b, v) -> better b init = false)
  \/
  (exists n, n ∈ range lo hi /\ f n = Some r /\ better r.1 init = true /\
     (forall n' b v, n' ∈ range lo hi -> f n' = Some (b, v) -> better b r.1 = false) /\
     (forall n' b v, n' ∈ range lo hi -> n' < n -> f n' = Some (b, v) ->
                     better_eq b r.1 = false)).
Proof.
  unfold range.
  assert (Hpos : forall n, n ∈ seqZ lo (hi - lo) ->
            (f <$> seqZ lo (hi - lo)) !! Z.to_nat (n - lo) = Some (f n)).
  { intros n Hn. apply elem_of_seqZ in Hn.
    rewrite list_lookup_fmap, lookup_seqZ_lt by lia.
    simpl. f_equal. f_equal. lia. }
  intros [[Hr Hall]|(i & Hi & Hbi & Hall & Hbefore)].
  - left. split; [exact Hr|]. intros n b v Hn Hf.
    eapply Hall. rewrite Hpos by exact Hn. now rewrite Hf.
  - right.
    rewrite list_lookup_fmap in Hi.
    destruct (seqZ lo (hi - lo) !! i) as [n|] eqn:Hn; [|discriminate].
    apply lookup_seqZ in Hn as [-> Hlt]. simpl in Hi. injection Hi as Hi.
    exists (lo + Z.of_nat i). split; [apply elem_of_seqZ; lia|].
    split; [exact Hi|]. split; [exact Hbi|]. split.
    + intros n' b v Hn' Hf. eapply Hall. rewrite Hpos by exact Hn'. now rewrite Hf.
    + intros n' b v Hn' Hlt' Hf. apply (Hbefore (Z.to_nat (n' - lo)) b v).
      * apply elem_of_seqZ in Hn'. lia.
      * rewrite Hpos by exact Hn'. now rewrite Hf.
Qed.

End Scan.

Section RecognizerFacts.
Context `{Ext : Externals}.

Lemma dict_get_key {V} (d : pydict V) (k : str) :
  k ∈ dict_keys d -> is_Some (dict_get d k).
Proof.
  unfold dict_keys. induction d as [|[k' v] d IH]; simpl; intros Hk.
  - inversion Hk.
  - case_bool_decide; [eauto|].
    apply IH. inversion Hk; subst; [congruence|assumption].
Qed.

Lemma dict_get_text {V} (d : pydict V) (k k' : str) :
  text k = text k' -> dict_get d k = dict_get d k'.
Proof.
  intros Ht. induction d as [|[k0 v] d IH]; simpl; [reflexivity|].
  rewrite Ht, IH. reflexivity.
Qed.

Lemma item_score_text models X lengths k k' :
  text k = text k' -> item_score models X lengths k = item_score models X lengths k'.
Proof. intros Ht. unfold item_score. now rewrite (dict_get_text _ _ _ Ht). Qed.

Lemma recognize_word_pure models X lengths k locals w :
  k ∈ dict_keys models ->
  recognize_word models X lengths k locals w
  = (Return (recognize_word_step models X lengths k locals), w).
Proof.
  intros Hk. destruct (dict_get_key _ _ Hk) as [wm Hwm].
  destruct locals as [[g p] wp].
  unfold recognize_word, recognize_word_step. rewrite Hwm.
  unfold mbind, M_bind, bind, or_raise, ret, try_except, method_score. simpl.
  destruct wm as [m|]; simpl; [|reflexivity].
  unfold or_raise, ret, raise. destruct (score m X lengths) as [s|]; simpl; [|reflexivity].
  destruct (PyFloat.gtb s p); reflexivity.
Qed.

Lemma recognize_item_pure models X lengths w :
  recognize_item models X lengths w
  = (Return (foldl (fun a k => recognize_word_step models X lengths k a)
                   (None, neg_infinity, ∅) (dict_keys models)), w).
Proof.
  unfold recognize_item.
  rewrite (for_pure (recognize_word_step models X lengths) (fun _ w => w)).
  - f_equal. generalize (dict_keys models). intros l. revert w.
    induction l; intros; simpl; auto.
  - intros. now apply recognize_word_pure.
Qed.

(** The table built by the inner loop holds [item_score] at every word it
    went through. *)
Lemma recognize_word_step_table models X lengths k g p wp :
  (recognize_word_step models X lengths k (g, p, wp)).2
  = <[text k := item_score models X lengths k]> wp.
Proof.
  unfold recognize_word_step, item_score.
  destruct (dict_get models k) as [[m|]|]; simpl; try reflexivity.
  destruct (score m X lengths) as [s|]; simpl; try reflexivity.
  destruct (PyFloat.gtb s p); reflexivity.
Qed.

Lemma recognize_fold_table models X lengths (l : list str) a k :
  k ∈ l ->
  (foldl (fun a k => recognize_word_step models X lengths k a) a l).2 !! text k
  = Some (item_score models X lengths k).
Proof.
  revert k. induction l as [|x l IH] using rev_ind; intros k Hk.
  - inversion Hk.
  - rewrite foldl_snoc.
    destruct (foldl _ a l) as [[g p] wp] eqn:E.
    rewrite recognize_word_step_table.
    destruct (decide (text x = text k)) as [Ht|Ht].
    + rewrite Ht, lookup_insert_eq. f_equal. now apply item_score_text.
    + rewrite lookup_insert_ne by assumption.
      apply elem_of_app in Hk as [Hk|Hk].
      * apply (IH k Hk).
      * apply list_elem_of_singleton in Hk. congruence.
Qed.

(** When no model scores the item the guess is never assigned. *)
Lemma recognize_fold_all_fail models X lengths (l : list str) g p wp :
  (forall k, k ∈ l -> scoring_fails models X lengths k) ->
  (foldl (fun a k => recognize_word_step models X lengths k a) (g, p, wp) l).1 = (g, p).
Proof.
  induction l as [|x l IH] using rev_ind; intros Hfail; [reflexivity|].
  rewrite foldl_snoc.
  assert (Hl : forall k, k ∈ l -> scoring_fails models X lengths k).
  { intros k Hk. apply Hfail, elem_of_app. now left. }
  specialize (IH Hl).
  destruct (foldl _ (g, p, wp) l) as [[g' p'] wp'] eqn:E. simpl in IH.
  injection IH as -> ->.
  assert (Hx : scoring_fails models X lengths x).
  { apply Hfail, elem_of_app. right. now left. }
  unfold scoring_fails in Hx. unfold recognize_word_step.
  destruct (dict_get models x) as [[m|]|]; try reflexivity.
  now rewrite Hx.
Qed.

Lemma item_score_fails models X lengths k :
  scoring_fails models X lengths k -> item_score models X lengths k = neg_infinity.
Proof.
  unfold scoring_fails, item_score.
  destruct (dict_get models k) as [[m|]|]; try reflexivity.
  now intros ->.
Qed.

Lemma foldl_append2 {A B C} (F : C -> A) (G : C -> B) (l : list C) ps gs :
  foldl (fun (a : list A * list B) n => (a.1 ++ [F n], a.2 ++ [G n])) (ps, gs) l
  = (ps ++ (F <$> l), gs ++ (G <$> l)).
Proof.
  revert ps gs. induction l as [|x l IH]; intros ps gs; simpl.
  - now rewrite !app_nil_r.
  - rewrite IH. now rewrite <- !app_assoc.
Qed.

(** The result of the inner loop for test item [n]. *)
Lemma recognize_pure models test_set w :
  let item n :=
    foldl (fun a k => recognize_word_step models
                        (get_item_Xlengths test_set n).1 (get_item_Xlengths test_set n).2 k a)
          (None, neg_infinity, ∅) (dict_keys models) in
  recognize models test_set w
  = (Return ((fun n => (item n).2) <$> range 0 (num_items test_set),
             (fun n => (item n).1.1) <$> range 0 (num_items test_set)), w).
Proof.
  intros item. unfold recognize.
  rewrite (for_pure (fun n (a : list (gmap string float) * list (option str)) =>
                       (a.1 ++ [(item n).2], a.2 ++ [(item n).1.1]))
                    (fun _ w => w)).
  - f_equal.
    + f_equal. now rewrite foldl_append2.
    + generalize (range 0 (num_items test_set)). intros l. revert w.
      induction l; intros; simpl; auto.
  - intros n [ps gs] w' _. unfold recognize_body.
    destruct (get_item_Xlengths test_set n) as [X0 l0] eqn:E.
    erewrite bind_Return by apply recognize_item_pure.
    subst item. simpl. rewrite E. simpl.
    destruct (foldl _ _ _) as [[g p] wp]. reflexivity.
Qed.

End RecognizerFacts.

(** ** SelectorBIC *)

Section BICFacts.
Context `{Ext : Externals}.

Ltac run :=
  unfold mbind, M_bind, bind, mret, M_ret, ret, raise, try_except, or_raise,
    method_score, GaussianHMM_fit, len_first in *; simpl in *.

Lemma base_model_run (self : ModelSelector) (n : Z) (w : World) :
  base_model self n w
  = (Return (fit n (random_state self) (X self) (lengths self)), more_fit_calls 1 w).
Proof.
  unfold base_model, more_fit_calls. run.
  destruct (fit n (random_state self) (X self) (lengths self)); reflexivity.
Qed.

Lemma foldl_more_fit_calls {B} (k : nat) (l : list B) (w : World) :
  foldl (fun w _ => more_fit_calls k w) w l = more_fit_calls (length l * k) w.
Proof.
  revert w. induction l as [|x l IH]; intros w; simpl.
  - now destruct w.
  - rewrite IH. unfold more_fit_calls. simpl. f_equal. lia.
Qed.

Lemma SelectorBIC_body_run (self : ModelSelector) (n : Z)
    (locals : float * option Model) (w : World) :
  SelectorBIC_body self n locals w
  = (Return (pick PrimFloat.ltb locals (BIC_candidate self n)), more_fit_calls 1 w).
Proof.
  destruct locals as [min_score min_model].
  unfold SelectorBIC_body, BIC_candidate, BIC_formula, base_model, more_fit_calls, pick.
  run.
  destruct (fit n (random_state self) (X self) (lengths self)) as [model|]; simpl;
    [|reflexivity].
  destruct (score model (X self) (lengths self)) as [logL|]; simpl; [|reflexivity].
  destruct (X self) as [|frame rest]; simpl; [reflexivity|].
  match goal with |- context [PrimFloat.ltb ?a ?b] => destruct (PrimFloat.ltb a b) end;
    reflexivity.
Qed.

Lemma SelectorBIC_loop_run (self : ModelSelector) (w : World) :
  let candidates := range (min_n_components self) (max_n_components self + 1) in
  SelectorBIC_loop self w
  = (Return (foldl (pick PrimFloat.ltb) (infinity, None) (BIC_candidate self <$> candidates)),
     more_fit_calls (length candidates) w).
Proof.
  intros candidates. unfold SelectorBIC_loop. fold candidates.
  rewrite (for_pure (fun n a => pick PrimFloat.ltb a (BIC_candidate self n))
                    (fun _ => more_fit_calls 1)).
  - rewrite foldl_more_fit_calls, Nat.mul_1_r. f_equal.
    rewrite foldl_fmap. reflexivity.
  - intros. apply SelectorBIC_body_run.
Qed.

End BICFacts.

Section BICClaim.
Context `{Ext : Externals}.

Lemma BIC_candidate_Some (self : ModelSelector) (frame : Frame) (rest : list Frame)
    (n : Z) (bic : float) (v : option Model) :
  X self = frame :: rest ->
  BIC_candidate self n = Some (bic, v) <->
  exists model logL,
    fit n (random_state self) (X self) (lengths self) = Some model /\
    score model (X self) (lengths self) = Some logL /\
    bic = BIC_formula logL n (len frame) (len (X self)) /\ v = Some model.
Proof.
  intros HX. unfold BIC_candidate.
  destruct (fit n (random_state self) (X self) (lengths self)) as [model|] eqn:Hfit;
    simpl.
  2:{ split; [discriminate|]. intros (? & ? & [=] & _). }
  destruct (score model (X self) (lengths self)) as [logL|] eqn:Hscore; simpl.
  2:{ split; [discriminate|]. intros (? & ? & [= <-] & Hs & _). congruence. }
  rewrite HX at 1. simpl. split.
  - intros [= <- <-]. eauto 6.
  - intros (? & ? & [= <-] & Hs & -> & ->).
    rewrite Hscore in Hs. injection Hs as <-. reflexivity.
Qed.

(** C3 (amended): for a word with at least one frame ([F] features per
    frame, [N] frames in all), the BIC of a candidate [n] on which training
    and scoring succeed is [-2*logL + (n*(n-1) + 2*F*n) * ln N]; candidates
    on which either fails have none and the search goes on past them.  When
    some candidate has a BIC below the initial [+inf], [select] returns the
    model of the candidate whose BIC is minimal, the first such candidate in
    the order of the search: no candidate has a strictly smaller BIC and no
    earlier candidate has one as small.  When no candidate has a BIC below
    [+inf] (each failed, or has a BIC of [+inf] or [nan], as a
    log-likelihood of [-inf] gives), [select] returns what training at
    [n_constant] gives. *)
Theorem SelectorBIC_select_minimal (self : ModelSelector) (w : World)
    (frame : Frame) (rest : list Frame) :
  X self = frame :: rest ->
  let F := len frame in
  let N := len (X self) in
  let candidates := range (min_n_components self) (max_n_components self + 1) in
  let trained n := fit n (random_state self) (X self) (lengths self) in
  let BIC n : option (float * Model) :=
    model ← trained n;
    logL ← score model (X self) (lengths self);
    Some (BIC_formula logL n F N, model) in
  exists r w',
    SelectorBIC_select self w = (Return r, w') /\
    ((exists n model bic,
        n ∈ candidates /\ BIC n = Some (bic, model) /\ r = Some model /\
        (bic <? infinity)%float = true /\
        (forall n' bic' model', n' ∈ candidates -> BIC n' = Some (bic', model') ->
                                (bic' <? bic)%float = false) /\
        (forall n' bic' model', n' ∈ candidates -> n' < n ->
                                BIC n' = Some (bic', model') ->
                                (bic' <=? bic)%float = false))
     \/
     ((forall n bic model, n ∈ candidates -> BIC n = Some (bic, model) ->
                           (bic <? infinity)%float = false) /\
      r = trained (n_constant self))).
Proof.
  intros HX F N candidates trained BIC.
  assert (HBIC : forall n bic model,
             BIC n = Some (bic, model) <-> BIC_candidate self n = Some (bic, Some model)).
  { intros n bic model. rewrite (BIC_candidate_Some self frame rest) by exact HX.
    subst BIC trained F N. simpl.
    destruct (fit n (random_state self) (X self) (lengths self)) as [m|] eqn:Hfit;
      simpl.
    2:{ split; [discriminate|]. intros (? & ? & [=] & _). }
    destruct (score m (X self) (lengths self)) as [l|] eqn:Hscore; simpl.
    2:{ split; [discriminate|]. intros (? & ? & [= <-] & Hs & _). congruence. }
    split.
    - intros [= <- <-]. eauto 6.
    - intros (? & ? & [= <-] & Hs & -> & [= <-]).
      rewrite Hscore in Hs. injection Hs as <-. reflexivity. }
  assert (Hmodel : forall n bic v, BIC_candidate self n = Some (bic, v) ->
                                   exists model, v = Some model).
  { intros n bic v Hc. apply (BIC_candidate_Some self frame rest) in Hc; [|exact HX].
    destruct Hc as (model & _ & _ & _ & _ & ->). eauto. }
  unfold SelectorBIC_select.
  pose proof (scan_first_best PrimFloat.ltb PrimFloat.leb
                PyFloatFacts.ltb_irrefl PyFloatFacts.ltb_trans PyFloatFacts.leb_ltb_trans
                infinity (BIC_candidate self <$> candidates)) as Hscan.
  apply first_best_range in Hscan.
  erewrite bind_Return by apply SelectorBIC_loop_run.
  fold candidates in Hscan |- *.
  destruct (foldl (pick PrimFloat.ltb) (infinity, None) (BIC_candidate self <$> candidates))
    as [min_score min_model] eqn:E.
  destruct Hscan as [[[= -> ->] Hnone]|(n & Hn & Hcand & Hlt & Hmin & Hfirst)].
  - rewrite base_model_run. eexists _, _. split; [reflexivity|]. right.
    split; [|reflexivity].
    intros n bic model Hn Hb. eapply Hnone; [exact Hn|]. apply HBIC. exact Hb.
  - destruct (Hmodel _ _ _ Hcand) as [model ->]. simpl in *.
    eexists _, _. split; [reflexivity|]. left.
    exists n, model, min_score. split; [exact Hn|].
    split; [now apply HBIC|]. split; [reflexivity|]. split; [exact Hlt|]. split.
    + intros n' bic' model' Hn' Hb. eapply Hmin; [exact Hn'|]. apply HBIC. exact Hb.
    + intros n' bic' model' Hn' Hlt' Hb. eapply Hfirst; [exact Hn'|exact Hlt'|].
      apply HBIC. exact Hb.
Qed.

End BICClaim.

(** C3 as stated fails: the models of 2 and 3 states of word I train and
    score, the log-likelihood being negative infinity; each BIC is [+inf],
    which is not below the initial [+inf], and [select] returns the fallback
    model of 5 states, the model of no candidate. *)
Lemma SelectorBIC_returns_no_candidate :
  let self := Rigged.selector_I in
  let trained n := fit (Externals := Rigged.externals) n (random_state self) (X self)
                       (lengths self) in
  (forall n, n ∈ range (min_n_components self) (max_n_components self + 1) ->
     exists model,
       trained n = Some model /\
       score (Externals := Rigged.externals) model (X self) (lengths self)
       = Some neg_infinity /\
       BIC_candidate (Ext := Rigged.externals) self n = Some (infinity, Some model)) /\
  exists returned,
    (SelectorBIC_select (Ext := Rigged.externals) self Rigged.fresh).1
    = Return (Some returned) /\
    Rigged.states returned = 5 /\
    forall n, n ∈ range (min_n_components self) (max_n_components self + 1) ->
              trained n <> Some returned.
Proof.
  intros self trained. split.
  - intros n Hn. apply elem_of_seqZ in Hn. simpl in Hn.
    assert (Hcases : n = 2 \/ n = 3) by lia.
    destruct Hcases as [-> | ->]; eexists; repeat split; reflexivity.
  - exists {| Rigged.states := 5; Rigged.trained_on := Rigged.table_I |}.
    split; [reflexivity|]. split; [reflexivity|].
    intros n Hn. apply elem_of_seqZ in Hn. simpl in Hn.
    assert (Hcases : n = 2 \/ n = 3) by lia.
    destruct Hcases as [-> | ->]; discriminate.
Qed.

(** ** SelectorCV *)

Section CVFacts.
Context `{Ext : Externals}.

Ltac run :=
  unfold mbind, M_bind, bind, mret, M_ret, ret, raise, try_except, or_raise,
    method_score, GaussianHMM_fit in *; simpl in *.

Lemma SelectorCV_fold_run (self : ModelSelector) (n : Z) (split : list nat * list nat)
    (locals : list float * option Model) (w : World) :
  SelectorCV_fold self n split locals w
  = (Return (CV_fold_step self n split locals), more_fit_calls 1 w).
Proof.
  destruct locals as [res word_model], split as [train test].
  unfold SelectorCV_fold, CV_fold_step, more_fit_calls. simpl.
  destruct (combine_sequences test (sequences self)) as [X_test lengths_test].
  destruct (combine_sequences train (sequences self)) as [X_train lengths_train].
  run.
  destruct (fit n (random_state self) X_train lengths_train) as [m|]; simpl;
    [|reflexivity].
  destruct (score m X_test lengths_test); reflexivity.
Qed.

(** The folds append their scores to [res] in order. *)
Lemma CV_folds_scores (self : ModelSelector) (n : Z)
    (folds : list (list nat * list nat)) (res : list float) (wm : option Model) :
  (foldl (fun a split => CV_fold_step self n split a) (res, wm) folds).1
  = res ++ omap (CV_fold_score self n) folds.
Proof.
  induction folds as [|split folds IH] using rev_ind.
  - simpl. now rewrite app_nil_r.
  - rewrite foldl_snoc, omap_app.
    destruct (foldl _ (res, wm) folds) as [res' wm'] eqn:E.
    simpl in IH. subst res'.
    unfold CV_fold_step, CV_fold_score. simpl.
    destruct (fit n (random_state self) _ _) as [m|]; simpl;
      [|now rewrite app_nil_r].
    destruct (score m _ _) as [s|]; simpl;
      [now rewrite <- app_assoc|now rewrite app_nil_r].
Qed.

(** When some fold succeeded, [word_model] is the model of a fold at [n],
    whatever it was bound to before. *)
Lemma CV_folds_model (self : ModelSelector) (n : Z)
    (folds : list (list nat * list nat)) (res : list float) (wm : option Model) :
  omap (CV_fold_score self n) folds <> [] ->
  exists model,
    (foldl (fun a split => CV_fold_step self n split a) (res, wm) folds).2 = Some model /\
    (foldl (fun a split => CV_fold_step self n split a) ([], None) folds).2 = Some model /\
    exists split, split ∈ folds /\
      fit n (random_state self) (combine_sequences split.1 (sequences self)).1
          (combine_sequences split.1 (sequences self)).2 = Some model.
Proof.
  induction folds as [|split folds IH] using rev_ind; intros Hne; [now destruct Hne|].
  rewrite !foldl_snoc.
  rewrite omap_app in Hne. simpl in Hne.
  unfold CV_fold_step at 1 3. unfold CV_fold_score at 2 in Hne. simpl in Hne.
  destruct (fit n (random_state self) _ _) as [m|] eqn:Hfit; simpl in *.
  - exists m. split; [|split].
    + destruct (score m _ _); reflexivity.
    + destruct (score m _ _); reflexivity.
    + exists split. split; [apply elem_of_app; right; now left|exact Hfit].
  - rewrite app_nil_r in Hne. destruct (IH Hne) as (model & H1 & H2 & split' & Hin & Hf).
    exists model. split; [exact H1|]. split; [exact H2|].
    exists split'. split; [apply elem_of_app; now left|exact Hf].
Qed.

Lemma SelectorCV_body_run (self : ModelSelector) (n : Z)
    (max_cv : float) (max_model word_model : option Model) (w : World) :
  3 <= len (sequences self) ->
  exists word_model' w',
    SelectorCV_body self n (max_cv, max_model, word_model) w
    = (Return (Next (pick PyFloat.gtb (max_cv, max_model) (CV_candidate self n),
                     word_model')), w').
Proof.
  intros Hlen. unfold SelectorCV_body.
  destruct (len (sequences self) <? 3) eqn:E; [apply Z.ltb_lt in E; lia|].
  erewrite bind_Return.
  2:{ rewrite (for_pure (CV_fold_step self n) (fun _ => more_fit_calls 1)).
      - reflexivity.
      - intros. apply SelectorCV_fold_run. }
  destruct (foldl _ ([], word_model) _) as [res wm] eqn:Efold.
  pose proof (CV_folds_scores self n (KFold_split 3 (sequences self)) [] word_model) as Hres.
  rewrite Efold in Hres. simpl in Hres.
  unfold CV_candidate, pick. rewrite <- Hres.
  destruct (0 <? len res) eqn:Hpos; [|eexists _, _; reflexivity].
  assert (Hne : omap (CV_fold_score self n) (KFold_split 3 (sequences self)) <> []).
  { rewrite <- Hres. intros ->. discriminate. }
  destruct (CV_folds_model self n _ [] word_model Hne) as (model & H1 & H2 & _).
  rewrite Efold in H1. simpl in H1. subst wm. rewrite H2. simpl.
  destruct (PyFloat.gtb (np_average res) max_cv); eexists _, _; reflexivity.
Qed.

Lemma SelectorCV_loop_pure (self : ModelSelector) (l : list Z)
    (max_cv : float) (max_model word_model : option Model) (w : World) :
  3 <= len (sequences self) ->
  exists word_model' w',
    for_break l (SelectorCV_body self) (max_cv, max_model, word_model) w
    = (Return (foldl (pick PyFloat.gtb) (max_cv, max_model) (CV_candidate self <$> l),
               word_model'), w').
Proof.
  intros Hlen. revert max_cv max_model word_model w.
  induction l as [|n l IH]; intros max_cv max_model word_model w; simpl.
  - eexists _, _. reflexivity.
  - destruct (SelectorCV_body_run self n max_cv max_model word_model w Hlen)
      as (wm1 & w1 & Hbody).
    erewrite bind_Return by exact Hbody. simpl.
    destruct (pick PyFloat.gtb (max_cv, max_model) (CV_candidate self n)) as [s m].
    apply IH.
Qed.

(** With fewer sequences than folds the loop stops at once: nothing is
    trained and nothing is kept. *)
Lemma SelectorCV_loop_too_few (self : ModelSelector) (w : World) :
  len (sequences self) < 3 ->
  exists locals,
    SelectorCV_loop self w = (Return locals, w) /\ locals.1.2 = None.
Proof.
  intros Hlen. unfold SelectorCV_loop.
  destruct (range (min_n_components self) (max_n_components self + 1)) as [|n l]; simpl.
  - eexists. split; reflexivity.
  - unfold SelectorCV_body.
    destruct (len (sequences self) <? 3) eqn:E; [|apply Z.ltb_ge in E; lia].
    eexists. split; reflexivity.
Qed.

End CVFacts.

Section CVClaims.
Context `{Ext : Externals}.

Lemma CV_candidate_Some (self : ModelSelector) (n : Z) (avg : float) (v : option Model) :
  CV_candidate self n = Some (avg, v) ->
  omap (CV_fold_score self n) (KFold_split 3 (sequences self)) <> [] /\
  avg = np_average (omap (CV_fold_score self n) (KFold_split 3 (sequences self))) /\
  exists model, v = Some model /\ CV_fold_model self n model.
Proof.
  unfold CV_candidate.
  destruct (0 <? len _) eqn:Hpos; [|discriminate].
  intros [= <- <-].
  assert (Hne : omap (CV_fold_score self n) (KFold_split 3 (sequences self)) <> []).
  { intros E. rewrite E in Hpos. discriminate. }
  split; [exact Hne|]. split; [reflexivity|].
  destruct (CV_folds_model self n _ [] None Hne) as (model & H1 & _ & split & Hin & Hfit).
  exists model. split; [exact H1|]. exists split. auto.
Qed.

Lemma CV_candidate_average (self : ModelSelector) (n : Z) :
  omap (CV_fold_score self n) (KFold_split 3 (sequences self)) <> [] ->
  exists v,
    CV_candidate self n
    = Some (np_average (omap (CV_fold_score self n) (KFold_split 3 (sequences self))), v).
Proof.
  intros Hne. unfold CV_candidate.
  destruct (omap _ _) as [|s res] eqn:E; [now destruct Hne|].
  eexists. reflexivity.
Qed.

(** C6: when the word has fewer than three sequences, the loop of
    [SelectorCV.select] stops at its first candidate without a trainer call
    and with no model kept, and [select] returns the constant-model
    fallback: the result of the one training at [n_constant]. *)
Theorem SelectorCV_select_too_few (self : ModelSelector) (w : World) :
  len (sequences self) < 3 ->
  (exists locals, SelectorCV_loop self w = (Return locals, w) /\ locals.1.2 = None) /\
  SelectorCV_select self w = base_model self (n_constant self) w /\
  SelectorCV_select self w
  = (Return (fit (n_constant self) (random_state self) (X self) (lengths self)),
     more_fit_calls 1 w).
Proof.
  intros Hlen.
  destruct (SelectorCV_loop_too_few self w Hlen) as ([[max_cv max_model] wm] & Hloop & Hnone).
  simpl in Hnone. subst max_model.
  assert (Hsel : SelectorCV_select self w = base_model self (n_constant self) w).
  { unfold SelectorCV_select. erewrite bind_Return by exact Hloop. reflexivity. }
  split; [eauto|]. split; [exact Hsel|].
  rewrite Hsel. apply base_model_run.
Qed.

(** C7 (amended): when the word has at least three sequences, the
    candidate [n] is rated by the average of the held-out log-likelihoods of
    the folds that succeeded at [n] (a candidate without such a fold is
    passed over).  When some candidate has an average above the initial
    [-inf], [select] returns a model trained at the winning [n] on the
    held-in sequences of one of the folds, the winning [n] being the first
    candidate of maximal average: no candidate has a strictly greater average
    and no earlier one has an average as great.  When no candidate has an
    average above [-inf] (no fold succeeded, or the average is [-inf] or
    [nan]), [select] returns what training at [n_constant] gives. *)
Theorem SelectorCV_select_best_average (self : ModelSelector) (w : World) :
  3 <= len (sequences self) ->
  let candidates := range (min_n_components self) (max_n_components self + 1) in
  let scores n := omap (CV_fold_score self n) (KFold_split 3 (sequences self)) in
  let average n := np_average (scores n) in
  exists r w',
    SelectorCV_select self w = (Return r, w') /\
    ((exists n model,
        n ∈ candidates /\ scores n <> [] /\
        r = Some model /\ CV_fold_model self n model /\
        PyFloat.gtb (average n) neg_infinity = true /\
        (forall n', n' ∈ candidates -> scores n' <> [] ->
                    PyFloat.gtb (average n') (average n) = false) /\
        (forall n', n' ∈ candidates -> n' < n -> scores n' <> [] ->
                    PyFloat.geb (average n') (average n) = false))
     \/
     ((forall n, n ∈ candidates -> scores n <> [] ->
                 PyFloat.gtb (average n) neg_infinity = false) /\
      r = fit (n_constant self) (random_state self) (X self) (lengths self))).
Proof.
  intros Hlen candidates scores average.
  pose proof (scan_first_best PyFloat.gtb PyFloat.geb
                PyFloatFacts.gtb_irrefl PyFloatFacts.gtb_trans PyFloatFacts.geb_gtb_trans
                neg_infinity (CV_candidate self <$> candidates)) as Hscan.
  apply first_best_range in Hscan.
  destruct (SelectorCV_loop_pure self candidates neg_infinity None None w Hlen)
    as (wm & w1 & Hloop).
  unfold SelectorCV_select, SelectorCV_loop. fold candidates.
  erewrite bind_Return by exact Hloop.
  destruct (foldl (pick PyFloat.gtb) (neg_infinity, None) (CV_candidate self <$> candidates))
    as [max_cv max_model] eqn:E.
  destruct Hscan as [[[= -> ->] Hnone]|(n & Hn & Hcand & Hgt & Hmax & Hfirst)].
  - rewrite base_model_run. eexists _, _. split; [reflexivity|]. right.
    split; [|reflexivity].
    intros n Hn Hne. destruct (CV_candidate_average self n Hne) as [v Hv].
    eapply Hnone; eassumption.
  - destruct (CV_candidate_Some _ _ _ _ Hcand) as (Hne & Havg & model & -> & Hmodel).
    simpl in *. subst max_cv.
    eexists _, _. split; [reflexivity|]. left.
    exists n, model. split; [exact Hn|]. split; [exact Hne|].
    split; [reflexivity|]. split; [exact Hmodel|]. split; [exact Hgt|]. split.
    + intros n' Hn' Hne'. destruct (CV_candidate_average self n' Hne') as [v Hv].
      eapply Hmax; eassumption.
    + intros n' Hn' Hlt Hne'. destruct (CV_candidate_average self n' Hne') as [v Hv].
      eapply Hfirst; eassumption.
Qed.

End CVClaims.

(** C7 as stated fails: every fold of word J trains and scores at 2 and at 3
    states, the held-out log-likelihoods being negative infinity; each
    average is [-inf], which is not above the initial [-inf], and [select]
    returns the fallback model of 5 states, trained at the state count of no
    candidate. *)
Lemma SelectorCV_returns_no_candidate :
  let self := Rigged.selector_J in
  3 <= len (sequences self) /\
  (forall n, n ∈ range (min_n_components self) (max_n_components self + 1) ->
     omap (CV_fold_score (Ext := Rigged.externals) self n)
          (KFold_split (Externals := Rigged.externals) 3 (sequences self))
     = [neg_infinity; neg_infinity; neg_infinity]) /\
  exists returned,
    (SelectorCV_select (Ext := Rigged.externals) self Rigged.fresh).1
    = Return (Some returned) /\
    Rigged.states returned = 5 /\
    forall n, n ∈ range (min_n_components self) (max_n_components self + 1) ->
              ~ CV_fold_model (Ext := Rigged.externals) self n returned.
Proof.
  intros self. split; [vm_compute; discriminate|]. split.
  - intros n Hn. apply elem_of_seqZ in Hn. simpl in Hn.
    assert (Hcases : n = 2 \/ n = 3) by lia.
    destruct Hcases as [-> | ->]; reflexivity.
  - exists {| Rigged.states := 5; Rigged.trained_on := concat Rigged.sequences_J |}.
    split; [reflexivity|]. split; [reflexivity|].
    intros n Hn (split & _ & Hfit). apply elem_of_seqZ in Hn. simpl in Hn.
    simpl in Hfit. unfold Rigged.rigged_fit in Hfit.
    destruct (len _ <? n); [discriminate|].
    injection Hfit as Hstates _. lia.
Qed.

(** ** What the computations read and write of the world *)

Section Effects.
Context `{Ext : Externals}.

Lemma same_dict_refl w : same_dict w w.
Proof. reflexivity. Qed.

Lemma respects_ret {A} (a : A) : respects (ret a).
Proof. intros w w' H. split; [reflexivity|exact H]. Qed.

Lemma respects_raise {A} (e : exn) : respects (raise (A := A) e).
Proof. intros w w' H. split; [reflexivity|exact H]. Qed.

Lemma respects_or_raise {A} (e : exn) (o : option A) : respects (or_raise e o).
Proof. destruct o; [apply respects_ret|apply respects_raise]. Qed.

Lemma respects_bind {A B} (m : M A) (k : A -> M B) :
  respects m -> (forall a, respects (k a)) -> respects (x ← m; k x).
Proof.
  intros Hm Hk w w' H. unfold mbind, M_bind, bind.
  destruct (Hm w w' H) as [H1 H2].
  destruct (m w) as [[a|e] w1], (m w') as [[a'|e'] w1']; simpl in *; try discriminate.
  - injection H1 as <-. now apply Hk.
  - injection H1 as <-. split; [reflexivity|exact H2].
Qed.

Lemma respects_try_except {A} (m h : M A) :
  respects m -> respects h -> respects (try_except m h).
Proof.
  intros Hm Hh w w' H. unfold try_except.
  destruct (Hm w w' H) as [H1 H2].
  destruct (m w) as [[a|e] w1], (m w') as [[a'|e'] w1']; simpl in *; try discriminate.
  - split; assumption.
  - now apply Hh.
Qed.

Lemma respects_for {A B} (l : list B) (body : B -> A -> M A) (a : A) :
  (forall x a, respects (body x a)) -> respects (for_ l body a).
Proof.
  intros Hbody. revert a. induction l as [|x l IH]; intros a; simpl.
  - apply respects_ret.
  - apply respects_bind; [apply Hbody|exact IH].
Qed.

Lemma respects_for_break {A B} (l : list B) (body : B -> A -> M (flow A)) (a : A) :
  (forall x a, respects (body x a)) -> respects (for_break l body a).
Proof.
  intros Hbody. revert a. induction l as [|x l IH]; intros a; simpl.
  - apply respects_ret.
  - apply respects_bind; [apply Hbody|].
    intros [a'|a']; [apply IH|apply respects_ret].
Qed.

Lemma respects_fit n rs X lengths : respects (GaussianHMM_fit n rs X lengths).
Proof. intros w w' H. split; [reflexivity|exact H]. Qed.

Lemma respects_method_score model X lengths : respects (method_score model X lengths).
Proof. destruct model; [apply respects_or_raise|apply respects_raise]. Qed.

Lemma respects_get_result_dict : respects get_result_dict.
Proof. intros w w' H. unfold get_result_dict. simpl. split; [now rewrite H|exact H]. Qed.

Lemma respects_set_result_dict d : respects (set_result_dict d).
Proof. intros w w' H. split; reflexivity. Qed.

Lemma keeps_ret {A} (a : A) : keeps_dict (ret a).
Proof. intros w. reflexivity. Qed.

Lemma keeps_raise {A} (e : exn) : keeps_dict (raise (A := A) e).
Proof. intros w. reflexivity. Qed.

Lemma keeps_or_raise {A} (e : exn) (o : option A) : keeps_dict (or_raise e o).
Proof. destruct o; [apply keeps_ret|apply keeps_raise]. Qed.

Lemma keeps_bind {A B} (m : M A) (k : A -> M B) :
  keeps_dict m -> (forall a, keeps_dict (k a)) -> keeps_dict (x ← m; k x).
Proof.
  intros Hm Hk w. unfold mbind, M_bind, bind.
  specialize (Hm w). destruct (m w) as [[a|e] w1]; simpl in *.
  - now rewrite Hk.
  - exact Hm.
Qed.

Lemma keeps_try_except {A} (m h : M A) :
  keeps_dict m -> keeps_dict h -> keeps_dict (try_except m h).
Proof.
  intros Hm Hh w. unfold try_except.
  specialize (Hm w). destruct (m w) as [[a|e] w1]; simpl in *.
  - exact Hm.
  - now rewrite Hh.
Qed.

Lemma keeps_for {A B} (l : list B) (body : B -> A -> M A) (a : A) :
  (forall x a, keeps_dict (body x a)) -> keeps_dict (for_ l body a).
Proof.
  intros Hbody. revert a. induction l as [|x l IH]; intros a; simpl.
  - apply keeps_ret.
  - apply keeps_bind; [apply Hbody|exact IH].
Qed.

Lemma keeps_for_break {A B} (l : list B) (body : B -> A -> M (flow A)) (a : A) :
  (forall x a, keeps_dict (body x a)) -> keeps_dict (for_break l body a).
Proof.
  intros Hbody. revert a. induction l as [|x l IH]; intros a; simpl.
  - apply keeps_ret.
  - apply keeps_bind; [apply Hbody|].
    intros [a'|a']; [apply IH|apply keeps_ret].
Qed.

Lemma keeps_fit n rs X lengths : keeps_dict (GaussianHMM_fit n rs X lengths).
Proof. intros w. reflexivity. Qed.

Lemma keeps_method_score model X lengths : keeps_dict (method_score model X lengths).
Proof. destruct model; [apply keeps_or_raise|apply keeps_raise]. Qed.

End Effects.

Create HintDb effects.
#[export] Hint Resolve respects_ret respects_raise respects_or_raise respects_bind
  respects_try_except respects_for respects_for_break respects_fit
  respects_method_score respects_get_result_dict respects_set_result_dict
  keeps_ret keeps_raise keeps_or_raise keeps_bind keeps_try_except keeps_for
  keeps_for_break keeps_fit keeps_method_score : effects.

(** Splits the pattern-matching binders and conditionals of a body, then
    closes the goal with the facts above. *)
Ltac effects :=
  repeat (intros; match goal with
          | |- context [let '(_, _) := ?p in _] => destruct p
          | |- context [match ?o with Some _ => _ | None => _ end] => destruct o
          | |- context [if ?b then _ else _] => destruct b
          | |- respects (mbind _ _) => apply respects_bind
          | |- keeps_dict (mbind _ _) => apply keeps_bind
          | |- respects (try_except _ _) => apply respects_try_except
          | |- keeps_dict (try_except _ _) => apply keeps_try_except
          | |- respects (for_ _ _ _) => apply respects_for
          | |- keeps_dict (for_ _ _ _) => apply keeps_for
          | |- respects (for_break _ _ _) => apply respects_for_break
          | |- keeps_dict (for_break _ _ _) => apply keeps_for_break
          end);
  auto with effects.

Section SelectorEffects.
Context `{Ext : Externals}.

Lemma respects_base_model self n : respects (base_model self n).
Proof. unfold base_model. effects. Qed.

Lemma keeps_base_model self n : keeps_dict (base_model self n).
Proof. unfold base_model. effects. Qed.

Lemma respects_BIC_loop self : respects (SelectorBIC_loop self).
Proof.
  unfold SelectorBIC_loop. apply respects_for. intros n [s m].
  unfold SelectorBIC_body, len_first.
  pose proof (respects_base_model self n). effects.
Qed.

Lemma keeps_BIC_loop self : keeps_dict (SelectorBIC_loop self).
Proof.
  unfold SelectorBIC_loop. apply keeps_for. intros n [s m].
  unfold SelectorBIC_body, len_first.
  pose proof (keeps_base_model self n). effects.
Qed.

Lemma respects_CV_loop self : respects (SelectorCV_loop self).
Proof.
  unfold SelectorCV_loop. apply respects_for_break. intros n [[s m] wm].
  unfold SelectorCV_body.
  assert (forall x a, respects (SelectorCV_fold self n x a)).
  { intros [train test] [res wm0]. unfold SelectorCV_fold. effects. }
  effects.
Qed.

Lemma keeps_CV_loop self : keeps_dict (SelectorCV_loop self).
Proof.
  unfold SelectorCV_loop. apply keeps_for_break. intros n [[s m] wm].
  unfold SelectorCV_body.
  assert (forall x a, keeps_dict (SelectorCV_fold self n x a)).
  { intros [train test] [res wm0]. unfold SelectorCV_fold. effects. }
  effects.
Qed.

Lemma respects_other_scores dict n ws : respects (other_scores dict n ws).
Proof. induction ws as [|x ws IH]; simpl; effects. Qed.

Lemma keeps_other_scores dict n ws : keeps_dict (other_scores dict n ws).
Proof. induction ws as [|x ws IH]; simpl; effects. Qed.

Lemma respects_DIC_loop self dict : respects (SelectorDIC_loop self dict).
Proof.
  unfold SelectorDIC_loop. apply respects_for. intros n [s m].
  unfold SelectorDIC_body.
  pose proof (respects_other_scores dict n (others self)). effects.
Qed.

Lemma keeps_DIC_loop self dict : keeps_dict (SelectorDIC_loop self dict).
Proof.
  unfold SelectorDIC_loop. apply keeps_for. intros n [s m].
  unfold SelectorDIC_body.
  pose proof (keeps_other_scores dict n (others self)). effects.
Qed.

Lemma respects_prepare self : respects (SelectorDIC_prepare self).
Proof.
  unfold SelectorDIC_prepare. apply respects_bind; [apply respects_get_result_dict|].
  intros [d|]; [apply respects_ret|].
  apply respects_for. intros n d. apply respects_for. intros k d'.
  unfold SelectorDIC_prepare_step. effects.
Qed.

End SelectorEffects.

(** ** SelectorDIC *)

Section DICFacts.
Context `{Ext : Externals}.

Ltac run :=
  unfold mbind, M_bind, bind, mret, M_ret, ret, raise, try_except, or_raise,
    method_score, GaussianHMM_fit, get_result_dict, set_result_dict in *; simpl in *.

Lemma SelectorDIC_prepare_cached (self : ModelSelector) (w : World)
    (d : gmap (string * Z) (option Model * float)) :
  result_dict w = Some d -> SelectorDIC_prepare self w = (Return d, w).
Proof. intros Hd. unfold SelectorDIC_prepare. run. now rewrite Hd. Qed.

Lemma other_scores_run (dict : gmap (string * Z) (option Model * float)) (n : Z)
    (ws : list str) (w : World) :
  other_scores dict n ws w
  = (match cached_scores dict n ws with
     | Some scores => Return scores
     | None => Raise KeyError
     end, w).
Proof.
  induction ws as [|x ws IH]; simpl; [reflexivity|].
  run. destruct (dict !! (text x, n)) as [e|]; simpl; [|reflexivity].
  rewrite IH. destruct (cached_scores dict n ws); reflexivity.
Qed.

Lemma SelectorDIC_body_run (self : ModelSelector)
    (dict : gmap (string * Z) (option Model * float)) (n : Z)
    (locals : float * option Model) (w : World) :
  SelectorDIC_body self dict n locals w
  = (Return (pick PyFloat.gtb locals (DIC_candidate self dict n)), w).
Proof.
  destruct locals as [max_dic max_model].
  unfold SelectorDIC_body, DIC_candidate, pick.
  unfold try_except, mbind at 1, M_bind at 1, bind at 1, or_raise.
  destruct (dict !! (text (this_word self), n)) as [e|]; simpl; [|reflexivity].
  unfold mbind, M_bind, bind. rewrite other_scores_run.
  destruct (cached_scores dict n (others self)) as [scores|]; simpl; [|reflexivity].
  destruct (PyFloat.gtb _ max_dic); reflexivity.
Qed.

Lemma SelectorDIC_loop_run (self : ModelSelector)
    (dict : gmap (string * Z) (option Model * float)) (w : World) :
  SelectorDIC_loop self dict w
  = (Return (foldl (pick PyFloat.gtb) (neg_infinity, None)
               (DIC_candidate self dict
                  <$> range (min_n_components self) (max_n_components self + 1))), w).
Proof.
  unfold SelectorDIC_loop.
  rewrite (for_pure (fun n a => pick PyFloat.gtb a (DIC_candidate self dict n))
                    (fun _ w => w)).
  - rewrite foldl_fmap. f_equal.
    generalize (range (min_n_components self) (max_n_components self + 1)).
    intros l. revert w. induction l; intros; simpl; auto.
  - intros. apply SelectorDIC_body_run.
Qed.

Lemma SelectorDIC_select_rest (self : ModelSelector) :
  SelectorDIC_select self = (dict ← SelectorDIC_prepare self; SelectorDIC_rest self dict).
Proof. reflexivity. Qed.

(** X10: a candidate at which the target word itself failed (its cache entry
    is the sentinel [(None, -inf)]) is never kept, whatever the scores of the
    other words: its criterion is [-inf] minus a mean, which is above
    nothing, so the loop body leaves its local variables and the world as
    they are. *)
Lemma SelectorDIC_failed_target_skipped (self : ModelSelector)
    (dict : gmap (string * Z) (option Model * float)) (n : Z)
    (locals : float * option Model) (w : World) :
  dict !! (text (this_word self), n) = Some (None, neg_infinity) ->
  SelectorDIC_body self dict n locals w = (Return locals, w).
Proof.
  intros Hfailed. rewrite SelectorDIC_body_run. f_equal. f_equal.
  unfold DIC_candidate, pick. rewrite Hfailed. simpl.
  destruct (cached_scores dict n (others self)) as [scores|]; simpl; [|reflexivity].
  now rewrite PyFloatFacts.gtb_neg_infinity_sub.
Qed.

(** When [this_word] is the very key object of the corpus, the rivals the
    code collects are the words whose text differs from the target's. *)
Lemma others_by_text (self : ModelSelector) :
  (forall k, k ∈ dict_keys (words self) -> text k = text (this_word self) ->
             k = this_word self) ->
  others self
  = List.filter (fun w => negb (bool_decide (text w = text (this_word self))))
                (dict_keys (words self)).
Proof.
  intros Hid. unfold others.
  induction (dict_keys (words self)) as [|k ks IH]; simpl; [reflexivity|].
  rewrite IH by (intros k' Hk'; apply Hid; now right).
  unfold py_is. repeat case_bool_decide; try reflexivity.
  - exfalso. match goal with H : _ <> _ |- _ => apply H end. now subst.
  - exfalso. match goal with H : _ <> _ |- _ => apply H end.
    apply Hid; [now left|assumption].
Qed.

Lemma DIC_candidate_claimed (self : ModelSelector)
    (dict : gmap (string * Z) (option Model * float)) (n : Z) :
  (forall k, k ∈ dict_keys (words self) -> text k = text (this_word self) ->
             k = this_word self) ->
  DIC_candidate self dict n
  = (e ← dict !! (text (this_word self), n);
     dic ← DIC_claimed self dict n;
     Some (dic, e.1)).
Proof.
  intros Hid. unfold DIC_candidate, DIC_claimed.
  rewrite <- (others_by_text self Hid).
  destruct (dict !! (text (this_word self), n)) as [e|]; simpl; [|reflexivity].
  destruct (cached_scores dict n (others self)); reflexivity.
Qed.

End DICFacts.

Section DICClaims.
Context `{Ext : Externals}.

Lemma SelectorDIC_rest_run (self : ModelSelector)
    (d : gmap (string * Z) (option Model * float)) (w : World) :
  let kept :=
    (foldl (pick PyFloat.gtb) (neg_infinity, None)
       (DIC_candidate self d
          <$> range (min_n_components self) (max_n_components self + 1))).2 in
  SelectorDIC_rest self d w
  = match kept with
    | Some model => (Return (Some model), w)
    | None => (Return (fit (n_constant self) (random_state self) (X self) (lengths self)),
               more_fit_calls 1 w)
    end.
Proof.
  intros kept. unfold SelectorDIC_rest.
  erewrite bind_Return by apply SelectorDIC_loop_run.
  subst kept. destruct (foldl _ _ _) as [max_dic [model|]]; simpl.
  - reflexivity.
  - apply base_model_run.
Qed.

(** C10: once the class attribute holds a cache, [prepare] on any selector,
    whatever its range of candidates, returns that cache and leaves the world
    as it is: no entry is added and the trainer is not called.  A candidate
    [n] for which the cache has no entry of the target word makes the lookup
    fail inside the [try]; the loop body keeps its local variables and the
    world as they are, so the candidate is skipped untrained, and the whole
    loop of [select] ends without a trainer call. *)
Theorem SelectorDIC_prepare_reuses_cache (self : ModelSelector) (w : World)
    (d : gmap (string * Z) (option Model * float)) :
  result_dict w = Some d ->
  SelectorDIC_prepare self w = (Return d, w) /\
  (forall n locals,
     d !! (text (this_word self), n) = None ->
     SelectorDIC_body self d n locals w = (Return locals, w)) /\
  (exists locals, SelectorDIC_loop self d w = (Return locals, w)).
Proof.
  intros Hd. split; [now apply SelectorDIC_prepare_cached|]. split.
  - intros n locals Hmiss. rewrite SelectorDIC_body_run.
    unfold DIC_candidate. rewrite Hmiss. reflexivity.
  - eexists. apply SelectorDIC_loop_run.
Qed.

(** C5 (amended): once the class attribute holds a cache, [prepare] returns
    it without a trainer call, and [select], for the same or for another
    word, returns with the cache unchanged.  Its search trains nothing.  When
    the search has kept a model, that model is returned and the trainer is
    not called at all; when it has kept none, the trainer is called exactly
    once, by the fallback [base_model(n_constant)], whose result is
    returned, whether or not the cache holds an entry for that state
    count. *)
Theorem SelectorDIC_select_cached (self : ModelSelector) (w : World)
    (d : gmap (string * Z) (option Model * float)) :
  result_dict w = Some d ->
  SelectorDIC_prepare self w = (Return d, w) /\
  exists max_dic max_model r w',
    SelectorDIC_loop self d w = (Return (max_dic, max_model), w) /\
    SelectorDIC_select self w = (Return r, w') /\
    result_dict w' = Some d /\
    match max_model with
    | Some model => r = Some model /\ w' = w
    | None =>
        r = fit (n_constant self) (random_state self) (X self) (lengths self) /\
        w' = more_fit_calls 1 w /\ fit_calls w' = S (fit_calls w)
    end.
Proof.
  intros Hd. split; [now apply SelectorDIC_prepare_cached|].
  rewrite SelectorDIC_select_rest.
  erewrite bind_Return by (apply SelectorDIC_prepare_cached; exact Hd).
  rewrite SelectorDIC_rest_run.
  pose proof (SelectorDIC_loop_run self d w) as Hloop.
  destruct (foldl _ _ _) as [max_dic [model|]]; simpl.
  - exists max_dic, (Some model). eexists _, _. split; [exact Hloop|].
    split; [reflexivity|]. split; [exact Hd|]. split; reflexivity.
  - exists max_dic, None. eexists _, _. split; [exact Hloop|].
    split; [reflexivity|]. split; [exact Hd|]. repeat split.
Qed.

End DICClaims.

(** C5 as stated fails: after a first [select] has filled the cache, which
    then holds the entry of word D at 3 states, a [select] for word D keeps no
    candidate and trains D at [n_constant = 3] once more: the trainer call
    count goes from 6 to 7. *)
Lemma second_DIC_select_trains_again :
  let w1 := Rigged.after_first_DIC in
  let w2 := (SelectorDIC_select (Ext := Rigged.externals) Rigged.selector_D w1).2 in
  (exists d, result_dict w1 = Some d /\
             d !! ("D", n_constant Rigged.selector_D) = Some (None, neg_infinity)) /\
  fit_calls w1 = 6%nat /\ fit_calls w2 = 7%nat /\ fit_calls w2 <> fit_calls w1.
Proof.
  split; [|split; [|split]].
  - exists (default ∅ (result_dict Rigged.after_first_DIC)).
    split; reflexivity.
  - vm_compute. reflexivity.
  - vm_compute. reflexivity.
  - vm_compute. discriminate.
Qed.

(** C4 fails where [this_word] is not the key object of the corpus: the
    test [w is not self.this_word] then keeps the target word among its own
    rivals.  With the cache of the three-word corpus, the DIC of word A at 3
    states is [nan] as the claim words it (no rival was scored there) and
    [-10 - mean([-10]) = 0] in the code; [select] returns the model of 2
    states for the key object and the model of 3 states for its copy. *)
Lemma SelectorDIC_copy_counts_itself :
  let self := Rigged.selector_A_copy in
  let d := default ∅ (result_dict Rigged.after_first_DIC) in
  text (this_word self) = text Rigged.word_A /\
  others self = [Rigged.word_A; Rigged.word_B; Rigged.word_D] /\
  DIC_claimed (Ext := Rigged.externals) self d 3 = Some nan /\
  fst <$> DIC_candidate (Ext := Rigged.externals) self d 3 = Some 0%float /\
  Rigged.states <$> (DIC_candidate (Ext := Rigged.externals) self d 3 ≫= snd) = Some 3 /\
  (SelectorDIC_select (Ext := Rigged.externals) Rigged.selector_A Rigged.fresh).1
  = Return (Some {| Rigged.states := 2; Rigged.trained_on := X Rigged.selector_A |}) /\
  (SelectorDIC_select (Ext := Rigged.externals) self Rigged.fresh).1
  = Return (Some {| Rigged.states := 3; Rigged.trained_on := X Rigged.selector_A |}).
Proof.
  repeat split; vm_compute; reflexivity.
Qed.

(** ** All four strategies *)

Section SelectClaims.
Context `{Ext : Externals}.

Lemma select_search (strategy : Strategy) (self : ModelSelector) (w : World) :
  select strategy self w
  = (kept ← search strategy self;
     match kept with
     | None => base_model self (n_constant self)
     | Some _ => ret kept
     end) w.
Proof.
  destruct strategy; simpl; unfold mbind, M_bind, bind, ret.
  - reflexivity.
  - unfold SelectorBIC_select, mbind, M_bind, bind.
    destruct (SelectorBIC_loop self w) as [[[s m]|e] w1]; reflexivity.
  - unfold SelectorDIC_select, mbind, M_bind, bind.
    destruct (SelectorDIC_prepare self w) as [[d|e] w0]; [|reflexivity].
    destruct (SelectorDIC_loop self d w0) as [[[s m]|e] w1]; reflexivity.
  - unfold SelectorCV_select, mbind, M_bind, bind.
    destruct (SelectorCV_loop self w) as [[[[s m] wm]|e] w1]; reflexivity.
Qed.

(** C2 (amended): for every strategy, when the search over the candidates
    keeps no model, [select] returns what training at [n_constant] gives, as
    a value: the model when that training succeeds and [None] when it fails.
    The failure of the fallback is caught in [base_model]; nothing is
    raised. *)
Theorem select_fallback (strategy : Strategy) (self : ModelSelector) (w w1 : World) :
  search strategy self w = (Return None, w1) ->
  select strategy self w
  = (Return (fit (n_constant self) (random_state self) (X self) (lengths self)),
     more_fit_calls 1 w1).
Proof.
  intros Hsearch. rewrite select_search.
  erewrite bind_Return by exact Hsearch. apply base_model_run.
Qed.

(** An invariant of the local variables and the world holds after a loop
    that returns. *)
Lemma for_invariant {A B} (I : A -> World -> Prop) (l : list B) (body : B -> A -> M A) :
  (forall x a w a' w', I a w -> body x a w = (Return a', w') -> I a' w') ->
  forall a w a' w', I a w -> for_ l body a w = (Return a', w') -> I a' w'.
Proof.
  intros Hbody. induction l as [|x l IH]; intros a w a' w' HI Hrun; simpl in Hrun.
  - injection Hrun as <- <-. exact HI.
  - unfold mbind, M_bind, bind in Hrun.
    destruct (body x a w) as [[a1|e] w1] eqn:Hx; [|discriminate].
    eapply IH; [|exact Hrun]. eapply Hbody; eassumption.
Qed.

(** After [prepare] has returned [d], the class attribute holds [d], or is
    still unset (no step of the loops was run). *)
Lemma SelectorDIC_prepare_attribute (self : ModelSelector) (w w0 : World)
    (d : gmap (string * Z) (option Model * float)) :
  SelectorDIC_prepare self w = (Return d, w0) ->
  result_dict w0 = Some d \/ (result_dict w = None /\ result_dict w0 = None).
Proof.
  unfold SelectorDIC_prepare, mbind at 1, M_bind at 1, bind at 1, get_result_dict.
  destruct (result_dict w) as [d0|] eqn:Hw.
  - intros [= <- <-]. now left.
  - intros Hrun.
    assert (HI : result_dict w0 = Some d \/ result_dict w0 = None);
      [|destruct HI; auto].
    revert Hrun.
    apply (for_invariant (fun d w => result_dict w = Some d \/ result_dict w = None));
      [|now right].
    intros n d1 w1 d2 w2 HI1.
    apply (for_invariant (fun d w => result_dict w = Some d \/ result_dict w = None));
      [|exact HI1].
    intros k d3 w3 d4 w4 _.
    unfold SelectorDIC_prepare_step, mbind at 1, M_bind at 1, bind at 1, or_raise.
    destruct (dict_get (hwords self) k) as [[X0 l0]|]; [|discriminate].
    unfold ret at 1.
    unfold mbind, M_bind, bind.
    destruct (try_except _ _ w3) as [[entry|e] w5]; [|discriminate].
    unfold set_result_dict, ret. intros [= <- <-]. now left.
Qed.

Lemma respects_DIC_rest self d : respects (SelectorDIC_rest self d).
Proof.
  unfold SelectorDIC_rest. apply respects_bind; [apply respects_DIC_loop|].
  intros [s [m|]]; [apply respects_ret|apply respects_base_model].
Qed.

Lemma keeps_DIC_rest self d : keeps_dict (SelectorDIC_rest self d).
Proof.
  unfold SelectorDIC_rest. apply keeps_bind; [apply keeps_DIC_loop|].
  intros [s [m|]]; [apply keeps_ret|apply keeps_base_model].
Qed.

Lemma respects_select (strategy : Strategy) (self : ModelSelector) :
  respects (select strategy self).
Proof.
  destruct strategy; simpl.
  - apply respects_base_model.
  - unfold SelectorBIC_select. apply respects_bind; [apply respects_BIC_loop|].
    intros [s [m|]]; [apply respects_ret|apply respects_base_model].
  - rewrite SelectorDIC_select_rest.
    apply respects_bind; [apply respects_prepare|]. intros d. apply respects_DIC_rest.
  - unfold SelectorCV_select. apply respects_bind; [apply respects_CV_loop|].
    intros [[s [m|]] wm]; [apply respects_ret|apply respects_base_model].
Qed.

Lemma keeps_select (strategy : Strategy) (self : ModelSelector) :
  strategy <> DIC -> keeps_dict (select strategy self).
Proof.
  intros Hs. destruct strategy; simpl; [| |congruence|].
  - apply keeps_base_model.
  - unfold SelectorBIC_select. apply keeps_bind; [apply keeps_BIC_loop|].
    intros [s [m|]]; [apply keeps_ret|apply keeps_base_model].
  - unfold SelectorCV_select. apply keeps_bind; [apply keeps_CV_loop|].
    intros [[s [m|]] wm]; [apply keeps_ret|apply keeps_base_model].
Qed.

(** C9: for every strategy, when [select] returns a model, a second call
    with the same inputs, in the world the first call left, returns the same
    model; the two results therefore give the same score (or fail alike) on
    every evaluation set.  The trainer is a function of its arguments, the
    seed among them: the only state of the selection itself is the DIC
    cache, and the second call reads from it what the first call used. *)
Theorem select_idempotent (strategy : Strategy) (self : ModelSelector)
    (w w1 : World) (r : option Model) :
  select strategy self w = (Return r, w1) ->
  exists r2 w2,
    select strategy self w1 = (Return r2, w2) /\ r2 = r /\
    forall X_eval lengths_eval w',
      method_score r2 X_eval lengths_eval w' = method_score r X_eval lengths_eval w'.
Proof.
  intros Hfirst.
  assert (Hsame : same_dict w w1 -> exists w2, select strategy self w1 = (Return r, w2)).
  { intros Hd. destruct (respects_select strategy self w w1 Hd) as [Hout _].
    rewrite Hfirst in Hout. simpl in Hout.
    destruct (select strategy self w1) as [r2 w2]. simpl in Hout. subst r2. eauto. }
  assert (Hgoal : exists w2, select strategy self w1 = (Return r, w2));
    [|destruct Hgoal as [w2 H2]; eauto].
  assert (Hcase : strategy = DIC \/ strategy <> DIC)
    by (destruct strategy; auto; right; discriminate).
  destruct Hcase as [->|Hs].
  2:{ apply Hsame. unfold same_dict. pose proof (keeps_select strategy self Hs w) as Hk.
      rewrite Hfirst in Hk. simpl in Hk. now rewrite Hk. }
  simpl in *. rewrite SelectorDIC_select_rest in Hfirst.
  unfold mbind, M_bind, bind in Hfirst.
  destruct (SelectorDIC_prepare self w) as [[d|e] w0] eqn:Hprep; [|discriminate].
  pose proof (keeps_DIC_rest self d w0) as Hkeep. rewrite Hfirst in Hkeep. simpl in Hkeep.
  destruct (SelectorDIC_prepare_attribute _ _ _ _ Hprep) as [Hd|[Hw Hw0]].
  - rewrite SelectorDIC_select_rest.
    assert (Hd1 : result_dict w1 = Some d) by congruence.
    erewrite bind_Return by (apply SelectorDIC_prepare_cached; exact Hd1).
    destruct (respects_DIC_rest self d w0 w1) as [Hout _]; [unfold same_dict; congruence|].
    rewrite Hfirst in Hout. simpl in Hout.
    destruct (SelectorDIC_rest self d w1) as [r2 w2]. simpl in Hout. subst r2. eauto.
  - apply Hsame. unfold same_dict. congruence.
Qed.

End SelectClaims.

(** C2 as stated fails: word D has a single frame, training fails at every
    state count, and each of the four strategies returns [None] to its
    caller; none raises. *)
Lemma select_returns_None :
  fit (Externals := Rigged.externals) (n_constant Rigged.selector_D)
      (random_state Rigged.selector_D) (X Rigged.selector_D)
      (lengths Rigged.selector_D) = None /\
  forall strategy,
    (select (Ext := Rigged.externals) strategy Rigged.selector_D Rigged.fresh).1
    = Return None.
Proof.
  split; [reflexivity|]. intros []; vm_compute; reflexivity.
Qed.

Section RecognizerClaims.
Context `{Ext : Externals}.

(** C8: for every models map and test set, [recognize] returns (it raises
    nothing and leaves the world alone) two lists as long as the test set
    has items; position [i] of each holds what the inner loop yields for
    test item [i] (its score table and its best guess) and the table has an
    entry for every word of the models map: the model's score, or negative
    infinity when the scoring fails. *)
Theorem recognize_fully_populated (models : pydict (option Model))
    (test_set : SinglesData) (w : World) :
  exists probabilities guesses,
    recognize models test_set w = (Return (probabilities, guesses), w) /\
    length probabilities = Z.to_nat (num_items test_set) /\
    length guesses = Z.to_nat (num_items test_set) /\
    forall i, 0 <= i < num_items test_set ->
      exists wp current_word current_word_prob,
        recognize_item models (get_item_Xlengths test_set i).1
                       (get_item_Xlengths test_set i).2 w
        = (Return (current_word, current_word_prob, wp), w) /\
        probabilities !! Z.to_nat i = Some wp /\
        guesses !! Z.to_nat i = Some current_word /\
        forall k, k ∈ dict_keys models ->
          wp !! text k
          = Some (item_score models (get_item_Xlengths test_set i).1
                             (get_item_Xlengths test_set i).2 k).
Proof.
  eexists _, _. split; [apply recognize_pure|].
  unfold range. rewrite !length_fmap, !length_seqZ, Z.sub_0_r.
  split; [reflexivity|]. split; [reflexivity|].
  intros i Hi.
  rewrite recognize_item_pure.
  destruct (foldl _ _ _) as [[g p] wp] eqn:E.
  exists wp, g, p. split; [reflexivity|].
  rewrite !list_lookup_fmap, lookup_seqZ_lt by lia.
  rewrite Z.add_0_l, Z2Nat.id by lia. simpl. rewrite E. simpl.
  split; [reflexivity|]. split; [reflexivity|].
  intros k Hk.
  pose proof (recognize_fold_table models (get_item_Xlengths test_set i).1
                (get_item_Xlengths test_set i).2 (dict_keys models)
                (None, neg_infinity, ∅) k Hk) as H.
  now rewrite E in H.
Qed.

(** C1 (amended): for every test item on which every model's scoring fails,
    [recognize] still emits a score table holding negative infinity for
    every word of the models map, and the best guess for that item is
    [None]: the strict comparison with the initial negative infinity never
    succeeds, so no word is ever assigned. *)
Theorem recognize_all_fail (models : pydict (option Model))
    (test_set : SinglesData) (w : World) (i : Z) :
  0 <= i < num_items test_set ->
  (forall k, k ∈ dict_keys models ->
     scoring_fails models (get_item_Xlengths test_set i).1
                   (get_item_Xlengths test_set i).2 k) ->
  exists probabilities guesses wp,
    recognize models test_set w = (Return (probabilities, guesses), w) /\
    probabilities !! Z.to_nat i = Some wp /\
    (forall k, k ∈ dict_keys models -> wp !! text k = Some neg_infinity) /\
    guesses !! Z.to_nat i = Some None.
Proof.
  intros Hi Hfail.
  eexists _, _, _. split; [apply recognize_pure|].
  unfold range.
  rewrite !list_lookup_fmap, lookup_seqZ_lt by lia.
  rewrite Z.add_0_l, Z2Nat.id by lia. simpl.
  split; [reflexivity|]. split.
  - intros k Hk. rewrite recognize_fold_table by assumption.
    f_equal. now apply item_score_fails, Hfail.
  - now rewrite recognize_fold_all_fail.
Qed.

End RecognizerClaims.

Lemma rigged_no_frames_fails (models : pydict (option Rigged.model)) (k : str) :
  scoring_fails (Ext := Rigged.externals) models [] [] k.
Proof.
  unfold scoring_fails.
  change (@Model Rigged.externals) with Rigged.model.
  destruct (dict_get models k) as [[m|]|]; [|exact I|exact I].
  cbn. unfold Rigged.rigged_score. now rewrite lookup_nil.
Qed.

(** C1 as stated fails: with two models that cannot score the only test
    item, the first word of the models map is ["A"], and the guess is
    [None]. *)
Lemma recognize_all_fail_guess_is_not_first_word :
  (forall k, k ∈ dict_keys Rigged.two_models ->
     scoring_fails (Ext := Rigged.externals) Rigged.two_models [] [] k) /\
  head (dict_keys Rigged.two_models) = Some Rigged.word_A /\
  exists probabilities guesses,
    recognize (Ext := Rigged.externals) Rigged.two_models Rigged.empty_item Rigged.fresh
    = (Return (probabilities, guesses), Rigged.fresh) /\
    guesses !! 0%nat = Some None /\
    guesses !! 0%nat <> Some (head (dict_keys Rigged.two_models)).
Proof.
  split; [|split; [reflexivity|]].
  - intros k _. apply rigged_no_frames_fails.
  - exists [<["B" := neg_infinity]> (<["A" := neg_infinity]> ∅)], [None].
    split; [reflexivity|].
    split; [reflexivity|discriminate].
Qed.

Lemma recognize_all_fail_witness :
  exists probabilities guesses wp,
    recognize (Ext := Rigged.externals) Rigged.two_models Rigged.empty_item Rigged.fresh
    = (Return (probabilities, guesses), Rigged.fresh) /\
    probabilities !! Z.to_nat 0 = Some wp /\
    (forall k, k ∈ dict_keys Rigged.two_models -> wp !! text k = Some neg_infinity) /\
    guesses !! Z.to_nat 0 = Some None.
Proof.
  apply (recognize_all_fail (Ext := Rigged.externals)).
  - vm_compute. split; [discriminate|reflexivity].
  - intros k _. apply rigged_no_frames_fails.
Defined.

(** * Further properties *)

(** ** The best guess of the recogniser *)

Section Keep.
Context {V : Type}.
Variables better better_eq : float -> float -> bool.
Hypothesis better_irrefl : forall x, better x x = false.
Hypothesis better_trans :
  forall x y z, better x y = true -> better y z = true -> better x z = true.
Hypothesis better_eq_trans :
  forall x y z, better_eq x y = true -> better y z = true -> better x z = true.

(** The search keeps the first-encountered optimum: nothing when no
    candidate beats the sentinel, otherwise the candidate at some position,
    with none strictly better and none before it as good. *)
Lemma keep_first (init : float) (cands : list (option (float * V))) :
  let r := foldl (keep better) (init, None) cands in
  (r = (init, None) /\
   forall j b v, cands !! j = Some (Some (b, v)) -> better b init = false)
  \/
  (exists (i : nat) (v : V),
     cands !! i = Some (Some (r.1, v)) /\ r.2 = Some v /\
     better r.1 init = true /\
     (forall j b v', cands !! j = Some (Some (b, v')) -> better b r.1 = false) /\
     (forall j b v', (j < i)%nat -> cands !! j = Some (Some (b, v')) ->
                     better_eq b r.1 = false)).
Proof.
  induction cands as [|c cands IH] using rev_ind; simpl.
  - left. split; [reflexivity|]. intros j b v Hj. now rewrite lookup_nil in Hj.
  - rewrite foldl_snoc.
    destruct (foldl (keep better) (init, None) cands) as [s m] eqn:E. simpl in IH.
    assert (Hprev : forall j b v, cands !! j = Some (Some (b, v)) -> better b s = false).
    { destruct IH as [[[= -> ->] Hall]|(i & v & _ & _ & _ & Hall & _)]; exact Hall. }
    assert (Hs : s = init \/ better s init = true).
    { destruct IH as [[[= -> ->] _]|(i & v & _ & _ & Hi & _)]; [now left|now right]. }
    assert (Hsnoc : forall j (x : option (float * V)),
               (cands ++ [c]) !! j = Some x ->
               cands !! j = Some x \/ (j = length cands /\ x = c)).
    { intros j x Hj. apply lookup_snoc_Some in Hj as [[_ Hj]|[-> ->]]; auto. }
    destruct c as [[b v]|]; simpl.
    2:{ destruct IH as [[Hr Hall]|(i & v & Hi & Hv & Hbi & Hall & Hbefore)].
        - left. split; [exact Hr|]. intros j b v Hj.
          apply Hsnoc in Hj as [Hj|[_ [=]]]. eauto.
        - right. exists i, v. split; [now apply lookup_app_l_Some|].
          split; [exact Hv|]. split; [exact Hbi|]. split.
          + intros j b v' Hj. apply Hsnoc in Hj as [Hj|[_ [=]]]. eauto.
          + intros j b v' Hlt Hj. apply Hsnoc in Hj as [Hj|[_ [=]]]. eauto. }
    destruct (better b s) eqn:Hb; simpl.
    + right. exists (length cands), v.
      split; [apply list_lookup_middle; reflexivity|]. split; [reflexivity|]. split.
      { destruct Hs as [->|Hs]; [exact Hb|]. eapply better_trans; eassumption. }
      split.
      * intros j b' v' Hj. apply Hsnoc in Hj as [Hj|[_ [= <- <-]]].
        -- destruct (better b' b) eqn:E'; [|reflexivity].
           pose proof (Hprev _ _ _ Hj) as Hp.
           rewrite (better_trans _ _ _ E' Hb) in Hp. discriminate.
        -- apply better_irrefl.
      * intros j b' v' Hlt Hj. apply Hsnoc in Hj as [Hj|[-> _]]; [|lia].
        destruct (better_eq b' b) eqn:E'; [|reflexivity].
        pose proof (Hprev _ _ _ Hj) as Hp.
        rewrite (better_eq_trans _ _ _ E' Hb) in Hp. discriminate.
    + destruct IH as [[Hr Hall]|(i & v0 & Hi & Hv & Hbi & Hall & Hbefore)].
      * left. split; [exact Hr|]. injection Hr as -> ->.
        intros j b' v' Hj. apply Hsnoc in Hj as [Hj|[_ [= <- <-]]]; eauto.
      * right. exists i, v0. split; [now apply lookup_app_l_Some|].
        split; [exact Hv|]. split; [exact Hbi|]. simpl in *. split.
        -- intros j b' v' Hj. apply Hsnoc in Hj as [Hj|[_ [= <- <-]]]; eauto.
        -- intros j b' v' Hlt Hj. apply Hsnoc in Hj as [Hj|[-> _]]; eauto.
           apply lookup_lt_Some in Hi. lia.
Qed.

End Keep.

Section RecognizerGuess.
Context `{Ext : Externals}.

(** The guess and its score evolve as a search over the words that keeps
    the word with the running maximum. *)
Lemma recognize_fold_guess models X lengths (l : list str) start :
  (foldl (fun a k => recognize_word_step models X lengths k a) start l).1
  = (let r := foldl (keep PyFloat.gtb) (start.1.2, start.1.1)
                ((fun k => (fun s => (s, k)) <$> word_score models X lengths k) <$> l) in
     (r.2, r.1)).
Proof.
  induction l as [|k l IH] using rev_ind.
  - destruct start as [[g p] wp]. reflexivity.
  - rewrite fmap_app, !foldl_app. cbn [foldl fmap list_fmap].
    destruct (foldl (fun a k => recognize_word_step models X lengths k a) start l)
      as [[g p] wp].
    cbn [fst snd] in IH. injection IH as -> ->.
    unfold recognize_word_step, word_score, keep.
    destruct (dict_get models k) as [[m|]|]; simpl; try reflexivity.
    destruct (score m X lengths) as [s|]; simpl; [|reflexivity].
    destruct (PyFloat.gtb s _); reflexivity.
Qed.

(** X1: for every test item, the guess [recognize] emits is the word whose
    model gives the item the greatest log-likelihood, the first such word in
    the iteration order of the models map: no word scores strictly higher
    and no earlier word scores as high.  Words whose scoring fails take no
    part, and when no word scores above negative infinity the guess is
    [None]. *)
Theorem recognize_guess_is_first_maximum (models : pydict (option Model))
    (test_set : SinglesData) (w : World) (i : Z) :
  0 <= i < num_items test_set ->
  let X := (get_item_Xlengths test_set i).1 in
  let lengths := (get_item_Xlengths test_set i).2 in
  let scored k := word_score models X lengths k in
  exists probabilities guesses guess,
    recognize models test_set w = (Return (probabilities, guesses), w) /\
    guesses !! Z.to_nat i = Some guess /\
    ((guess = None /\
      forall k s, k ∈ dict_keys models -> scored k = Some s ->
                  PyFloat.gtb s neg_infinity = false)
     \/
     (exists (pos : nat) (k : str) (best : float),
        guess = Some k /\ dict_keys models !! pos = Some k /\ scored k = Some best /\
        PyFloat.gtb best neg_infinity = true /\
        (forall k' s, k' ∈ dict_keys models -> scored k' = Some s ->
                      PyFloat.gtb s best = false) /\
        (forall (j : nat) k' s, (j < pos)%nat -> dict_keys models !! j = Some k' ->
                                scored k' = Some s -> PyFloat.geb s best = false))).
Proof.
  intros Hi X0 lengths0 scored.
  eexists _, _, _. split; [apply recognize_pure|].
  unfold range. rewrite !list_lookup_fmap, lookup_seqZ_lt by lia.
  rewrite Z.add_0_l, Z2Nat.id by lia. simpl. split; [reflexivity|].
  fold X0 lengths0.
  pose proof (recognize_fold_guess models X0 lengths0 (dict_keys models)
                (None, neg_infinity, ∅)) as Hfold.
  simpl in Hfold.
  set (cands := (fun k => (fun s => (s, k)) <$> word_score models X0 lengths0 k)
                  <$> dict_keys models) in *.
  assert (Hcand : forall (j : nat) b (k : str),
             cands !! j = Some (Some (b, k)) <->
             dict_keys models !! j = Some k /\ scored k = Some b).
  { intros j b k. subst cands scored. rewrite list_lookup_fmap.
    destruct (dict_keys models !! j) as [k0|]; simpl.
    - destruct (word_score models X0 lengths0 k0) as [s|] eqn:Es; simpl.
      + split.
        * intros [= <- <-]. auto.
        * intros [[= <-] Hs]. congruence.
      + split; [discriminate|]. intros [[= <-] Hs]. congruence.
    - split; [discriminate|]. intros [[=] _]. }
  destruct (keep_first PyFloat.gtb PyFloat.geb PyFloatFacts.gtb_irrefl
              PyFloatFacts.gtb_trans PyFloatFacts.geb_gtb_trans neg_infinity cands)
    as [[Hr Hall]|(pos & k & Hpos & Hk & Hgt & Hmax & Hfirst)].
  - left. rewrite Hfold, Hr. simpl. split; [reflexivity|].
    intros k s Hin Hs. apply list_elem_of_lookup in Hin as [j Hj].
    apply (Hall j s k). apply Hcand. auto.
  - right. destruct (foldl (keep PyFloat.gtb) _ cands) as [best g] eqn:E.
    simpl in *. subst g. apply Hcand in Hpos as [Hkey Hscore].
    exists pos, k, best. rewrite Hfold. simpl.
    split; [reflexivity|]. split; [exact Hkey|]. split; [exact Hscore|].
    split; [exact Hgt|]. split.
    + intros k' s Hin Hs. apply list_elem_of_lookup in Hin as [j Hj].
      apply (Hmax j s k'). apply Hcand. auto.
    + intros j k' s Hlt Hj Hs. apply (Hfirst j s k' Hlt). apply Hcand. auto.
Qed.

End RecognizerGuess.

Section RecognizerTables.
Context `{Ext : Externals}.

#[local] Set Warnings "-clear-no-such-hyp".

Lemma recognize_fold_dom models X lengths (l : list str) g p wp :
  dom (foldl (fun a k => recognize_word_step models X lengths k a) (g, p, wp) l).2
  = list_to_set (text <$> l) ∪ dom wp.
Proof.
  induction l as [|k l IH] using rev_ind.
  - simpl. set_solver.
  - rewrite foldl_snoc.
    destruct (foldl _ (g, p, wp) l) as [[g1 p1] wp1]. simpl in IH.
    rewrite recognize_word_step_table, dom_insert_L, IH.
    rewrite fmap_app, list_to_set_app_L. simpl. set_solver.
Qed.

(** A guess has been scored: the loop assigns [current_word] only after the
    scoring of that word has returned. *)
Lemma recognize_fold_guess_scored models X lengths (l : list str) k :
  (foldl (fun a k => recognize_word_step models X lengths k a)
         (None, neg_infinity, ∅) l).1.1 = Some k ->
  is_Some (word_score models X lengths k).
Proof.
  induction l as [|x l IH] using rev_ind; [discriminate|].
  rewrite foldl_snoc.
  destruct (foldl _ (None, neg_infinity, ∅) l) as [[g p] wp]. simpl in IH.
  unfold recognize_word_step.
  destruct (dict_get models x) as [[m|]|] eqn:Hx; simpl; try exact IH.
  destruct (score m X lengths) as [s|] eqn:Hs; simpl; try exact IH.
  destruct (PyFloat.gtb s p); simpl; try exact IH.
  intros [= <-]. unfold word_score. rewrite Hx, Hs. eauto.
Qed.

(** X16: the score table of every test item holds the words of the models
    map and no other word. *)
Theorem recognize_table_words (models : pydict (option Model))
    (test_set : SinglesData) (w : World) (i : Z) :
  0 <= i < num_items test_set ->
  exists probabilities guesses wp,
    recognize models test_set w = (Return (probabilities, guesses), w) /\
    probabilities !! Z.to_nat i = Some wp /\
    dom wp = list_to_set (text <$> dict_keys models).
Proof.
  intros Hi. eexists _, _, _. split; [apply recognize_pure|].
  unfold range. rewrite list_lookup_fmap, lookup_seqZ_lt by lia.
  rewrite Z.add_0_l, Z2Nat.id by lia. simpl. split; [reflexivity|].
  rewrite recognize_fold_dom. set_solver.
Qed.

(** X17: a word whose selector returned [None] does not stop the
    recogniser: calling [score] on [None] fails inside the [try], the word
    gets negative infinity in every score table and is never the guess. *)
Theorem recognize_None_model (models : pydict (option Model))
    (test_set : SinglesData) (w : World) (i : Z) (k : str) :
  0 <= i < num_items test_set ->
  dict_get models k = Some None ->
  exists probabilities guesses wp guess,
    recognize models test_set w = (Return (probabilities, guesses), w) /\
    probabilities !! Z.to_nat i = Some wp /\
    guesses !! Z.to_nat i = Some guess /\
    wp !! text k = Some neg_infinity /\
    forall g, guess = Some g -> text g <> text k.
Proof.
  intros Hi Hk.
  assert (Hkey : exists k0, k0 ∈ dict_keys models /\ text k0 = text k).
  { clear Hi. unfold dict_keys. induction models as [|[k1 v] models IH]; [discriminate|].
    simpl in Hk. case_bool_decide as Ht.
    - exists k1. split; [now left|exact Ht].
    - destruct (IH Hk) as (k0 & Hin & Ht0). exists k0. split; [now right|exact Ht0]. }
  destruct Hkey as (k0 & Hin & Ht).
  eexists _, _, _, _. split; [apply recognize_pure|].
  unfold range. rewrite !list_lookup_fmap, lookup_seqZ_lt by lia.
  rewrite Z.add_0_l, Z2Nat.id by lia. simpl.
  split; [reflexivity|]. split; [reflexivity|]. split.
  - rewrite <- Ht, recognize_fold_table by exact Hin.
    f_equal. unfold item_score. now rewrite (dict_get_text _ _ _ Ht), Hk.
  - intros g Hg Htg. apply recognize_fold_guess_scored in Hg as [s Hs].
    unfold word_score in Hs. rewrite (dict_get_text _ _ _ Htg), Hk in Hs. discriminate.
Qed.

End RecognizerTables.

(** ** Selectors: what they return and what they cost *)

Section SelectorRuns.
Context `{Ext : Externals}.

Lemma range_length (lo hi : Z) : length (range lo hi) = Z.to_nat (hi - lo).
Proof. unfold range. apply length_seqZ. Qed.

Lemma range_empty (lo hi : Z) : hi <= lo -> range lo hi = [].
Proof. intros H. unfold range. apply seqZ_nil. lia. Qed.

Lemma more_fit_calls_more (j k : nat) (w : World) :
  more_fit_calls j (more_fit_calls k w) = more_fit_calls (j + k) w.
Proof. unfold more_fit_calls. simpl. f_equal. lia. Qed.

(** X2: [SelectorConstant.select] never raises: it returns the model the
    trainer gives at [n_constant] on the word's data, [None] when the trainer
    fails, after exactly one trainer call and without touching the DIC
    cache. *)
Theorem SelectorConstant_select_run (self : ModelSelector) (w : World) :
  exists w',
    SelectorConstant_select self w
    = (Return (fit (n_constant self) (random_state self) (X self) (lengths self)), w') /\
    fit_calls w' = S (fit_calls w) /\ result_dict w' = result_dict w.
Proof.
  exists (more_fit_calls 1 w). split; [apply base_model_run|]. split; reflexivity.
Qed.

(** X3: [SelectorBIC.select] never raises and never touches the DIC cache; it
    calls the trainer once for every candidate of the range, and once more,
    for the fallback, exactly when the search has kept no model. *)
Theorem SelectorBIC_select_calls (self : ModelSelector) (w : World) :
  let candidates := range (min_n_components self) (max_n_components self + 1) in
  exists min_score min_model,
    SelectorBIC_loop self w
    = (Return (min_score, min_model), more_fit_calls (length candidates) w) /\
    SelectorBIC_select self w
    = match min_model with
      | Some model => (Return (Some model), more_fit_calls (length candidates) w)
      | None => (Return (fit (n_constant self) (random_state self) (X self) (lengths self)),
                 more_fit_calls (S (length candidates)) w)
      end.
Proof.
  intros candidates. unfold SelectorBIC_select.
  pose proof (SelectorBIC_loop_run self w) as Hloop. simpl in Hloop. fold candidates in Hloop.
  destruct (foldl _ _ _) as [min_score min_model].
  exists min_score, min_model. split; [exact Hloop|].
  erewrite bind_Return by exact Hloop.
  destruct min_model as [model|]; [reflexivity|].
  rewrite base_model_run, more_fit_calls_more. reflexivity.
Qed.

(** X4: a word whose feature matrix has no frame makes [len(self.X[0])]
    fail inside the [try] at every candidate, also when training and scoring
    succeed: [SelectorBIC.select] keeps nothing and returns the fallback. *)
Theorem SelectorBIC_select_no_frames (self : ModelSelector) (w : World) :
  X self = [] ->
  exists w',
    SelectorBIC_select self w
    = (Return (fit (n_constant self) (random_state self) [] (lengths self)), w').
Proof.
  intros HX.
  assert (Hall : forall l a,
             foldl (pick PrimFloat.ltb) a (BIC_candidate self <$> l) = a).
  { induction l as [|n l IH]; intros a; simpl; [reflexivity|].
    rewrite IH. unfold BIC_candidate. rewrite HX.
    destruct (fit n (random_state self) [] (lengths self)) as [m|]; simpl;
      [|reflexivity].
    destruct (score m [] (lengths self)); reflexivity. }
  unfold SelectorBIC_select.
  erewrite bind_Return by apply SelectorBIC_loop_run.
  rewrite Hall. rewrite base_model_run, HX. eauto.
Qed.

(** The loop of [SelectorCV.select], with its trainer calls: one per fold
    and candidate. *)
Lemma SelectorCV_loop_calls (self : ModelSelector) (l : list Z)
    (locals : float * option Model * option Model) (w : World) :
  3 <= len (sequences self) ->
  exists locals',
    for_break l (SelectorCV_body self) locals w
    = (Return locals',
       more_fit_calls (length l * length (KFold_split 3 (sequences self))) w).
Proof.
  intros Hlen. revert locals w.
  induction l as [|n l IH]; intros [[max_cv max_model] word_model] w; simpl.
  - eexists. unfold ret. f_equal. now destruct w.
  - assert (Hbody : exists locals1,
               SelectorCV_body self n (max_cv, max_model, word_model) w
               = (Return (Next locals1),
                  more_fit_calls (length (KFold_split 3 (sequences self))) w)).
    { unfold SelectorCV_body.
      destruct (len (sequences self) <? 3) eqn:E; [apply Z.ltb_lt in E; lia|].
      erewrite bind_Return.
      2:{ rewrite (for_pure (CV_fold_step self n) (fun _ => more_fit_calls 1)).
          - rewrite foldl_more_fit_calls, Nat.mul_1_r. reflexivity.
          - intros. apply SelectorCV_fold_run. }
      destruct (foldl _ ([], word_model) _) as [res wm] eqn:Efold.
      destruct (0 <? len res) eqn:Hpos; [|eexists; reflexivity].
      pose proof (CV_folds_scores self n (KFold_split 3 (sequences self)) [] word_model)
        as Hres.
      rewrite Efold in Hres. simpl in Hres.
      assert (Hne : omap (CV_fold_score self n) (KFold_split 3 (sequences self)) <> []).
      { rewrite <- Hres. intros ->. discriminate. }
      destruct (CV_folds_model self n _ [] word_model Hne) as (model & H1 & _).
      rewrite Efold in H1. simpl in H1. subst wm.
      destruct (PyFloat.gtb (np_average res) max_cv); eexists; reflexivity. }
    destruct Hbody as [locals1 Hbody].
    erewrite bind_Return by exact Hbody. simpl.
    destruct (IH locals1 (more_fit_calls (length (KFold_split 3 (sequences self))) w))
      as [locals' Hrest].
    exists locals'. rewrite Hrest, more_fit_calls_more. f_equal. f_equal. lia.
Qed.

(** X5: with at least three sequences, [SelectorCV.select] never raises (the
    variable [word_model] is bound whenever it is read), leaves the DIC cache
    alone, and calls the trainer once per fold and candidate, plus once for
    the fallback exactly when the search has kept no model. *)
Theorem SelectorCV_select_calls (self : ModelSelector) (w : World) :
  3 <= len (sequences self) ->
  let trainings :=
    (length (range (min_n_components self) (max_n_components self + 1))
     * length (KFold_split 3 (sequences self)))%nat in
  exists max_cv max_model word_model,
    SelectorCV_loop self w
    = (Return (max_cv, max_model, word_model), more_fit_calls trainings w) /\
    SelectorCV_select self w
    = match max_model with
      | Some model => (Return (Some model), more_fit_calls trainings w)
      | None => (Return (fit (n_constant self) (random_state self) (X self) (lengths self)),
                 more_fit_calls (S trainings) w)
      end.
Proof.
  intros Hlen trainings.
  destruct (SelectorCV_loop_calls self
              (range (min_n_components self) (max_n_components self + 1))
              (neg_infinity, None, None) w Hlen) as [[[max_cv max_model] wm] Hloop].
  exists max_cv, max_model, wm. split; [exact Hloop|].
  unfold SelectorCV_select. erewrite bind_Return by exact Hloop.
  destruct max_model as [model|]; [reflexivity|].
  rewrite base_model_run, more_fit_calls_more. reflexivity.
Qed.

(** X6: the selectors that keep no cache never raise, whatever the corpus,
    the range and the trainer do, and leave the DIC cache as it is. *)
Theorem select_without_cache_returns (strategy : Strategy) (self : ModelSelector)
    (w : World) :
  strategy <> DIC ->
  exists r w',
    select strategy self w = (Return r, w') /\ result_dict w' = result_dict w.
Proof.
  intros Hs.
  assert (Hret : exists r w', select strategy self w = (Return r, w')).
  { destruct strategy; simpl; [| |congruence|].
    - eexists _, _. apply base_model_run.
    - unfold SelectorBIC_select.
      erewrite bind_Return by apply SelectorBIC_loop_run.
      destruct (foldl _ _ _) as [s [m|]]; [eauto|].
      eexists _, _. apply base_model_run.
    - unfold SelectorCV_select.
      destruct (Z.lt_ge_cases (len (sequences self)) 3) as [Hlt|Hge].
      + destruct (SelectorCV_loop_too_few self w Hlt) as ([[s m] wm] & Hloop & Hm).
        simpl in Hm. subst m. erewrite bind_Return by exact Hloop.
        eexists _, _. apply base_model_run.
      + destruct (SelectorCV_loop_calls self
                    (range (min_n_components self) (max_n_components self + 1))
                    (neg_infinity, None, None) w Hge) as [[[s m] wm] Hloop].
        unfold SelectorCV_loop. erewrite bind_Return by exact Hloop.
        destruct m; [eauto|]. eexists _, _. apply base_model_run. }
  destruct Hret as (r & w' & Hsel). exists r, w'. split; [exact Hsel|].
  pose proof (keeps_select strategy self Hs w) as Hk. now rewrite Hsel in Hk.
Qed.

(** X7: with an empty range of candidates ([max_n_components] below
    [min_n_components]) every strategy returns the fallback after a single
    trainer call; the DIC selector then trains no cache entry. *)
Theorem select_empty_range (strategy : Strategy) (self : ModelSelector) (w : World) :
  max_n_components self < min_n_components self ->
  select strategy self w
  = (Return (fit (n_constant self) (random_state self) (X self) (lengths self)),
     more_fit_calls 1 w).
Proof.
  intros Hrange.
  assert (Hnil : range (min_n_components self) (max_n_components self + 1) = [])
    by (apply range_empty; lia).
  destruct strategy; simpl.
  - apply base_model_run.
  - unfold SelectorBIC_select, SelectorBIC_loop. rewrite Hnil. simpl.
    unfold mbind, M_bind, bind, ret. apply base_model_run.
  - unfold SelectorDIC_select, SelectorDIC_prepare, SelectorDIC_loop,
      mbind, M_bind, bind, get_result_dict.
    rewrite Hnil. simpl.
    destruct (result_dict w); simpl; apply base_model_run.
  - unfold SelectorCV_select, SelectorCV_loop. rewrite Hnil. simpl.
    unfold mbind, M_bind, bind, ret. apply base_model_run.
Qed.

End SelectorRuns.

(** ** Scores that are not numbers *)

Module PyFloatNaN.

Lemma float_is_nan (x : float) : Prim2SF x = S754_nan -> x = nan.
Proof. intros H. rewrite <- (SF2Prim_Prim2SF x), H. reflexivity. Qed.

Lemma mul_nan (x : float) : (x * nan)%float = nan.
Proof.
  apply float_is_nan. rewrite mul_spec.
  change (Prim2SF nan) with S754_nan.
  destruct (Prim2SF x) as [s|s| |s m e]; reflexivity.
Qed.

Lemma nan_add (y : float) : (nan + y)%float = nan.
Proof. apply float_is_nan. rewrite add_spec. reflexivity. Qed.

Lemma nan_sub (y : float) : (nan - y)%float = nan.
Proof. apply float_is_nan. rewrite sub_spec. reflexivity. Qed.

Lemma nan_ltb (y : float) : (nan <? y)%float = false.
Proof. rewrite ltb_spec. reflexivity. Qed.

Lemma ltb_nan (x : float) : (x <? nan)%float = false.
Proof.
  rewrite ltb_spec. change (Prim2SF nan) with S754_nan.
  unfold SFltb, SFcompare. destruct (Prim2SF x) as [s|s| |s m e]; reflexivity.
Qed.

End PyFloatNaN.

Section NaNScores.
Context `{Ext : Externals}.

(** X18: a candidate whose model scores [nan] on the word's data is never
    kept by [SelectorBIC.select]: its criterion is [nan], which is below
    nothing, and the loop body leaves [min_score] and [min_model] as they
    are. *)
Theorem SelectorBIC_nan_skipped (self : ModelSelector) (n : Z) (model : Model)
    (locals : float * option Model) (w : World) :
  fit n (random_state self) (X self) (lengths self) = Some model ->
  score model (X self) (lengths self) = Some nan ->
  SelectorBIC_body self n locals w = (Return locals, more_fit_calls 1 w).
Proof.
  intros Hfit Hscore. rewrite SelectorBIC_body_run. f_equal. f_equal.
  unfold BIC_candidate, pick. rewrite Hfit. simpl. rewrite Hscore. simpl.
  destruct (head (X self)) as [frame|]; simpl; [|reflexivity].
  unfold BIC_formula.
  now rewrite PyFloatNaN.mul_nan, PyFloatNaN.nan_add, PyFloatNaN.nan_ltb.
Qed.

(** X19: a candidate at which the cached score of the target word is [nan]
    is never kept by [SelectorDIC.select], whatever the other words
    scored. *)
Theorem SelectorDIC_nan_skipped (self : ModelSelector)
    (dict : gmap (string * Z) (option Model * float)) (n : Z) (model : option Model)
    (locals : float * option Model) (w : World) :
  dict !! (text (this_word self), n) = Some (model, nan) ->
  SelectorDIC_body self dict n locals w = (Return locals, w).
Proof.
  intros Hentry. rewrite SelectorDIC_body_run. f_equal. f_equal.
  unfold DIC_candidate, pick. rewrite Hentry. simpl.
  destruct (cached_scores dict n (others self)) as [scores|]; simpl; [|reflexivity].
  unfold PyFloat.gtb. now rewrite PyFloatNaN.nan_sub, PyFloatNaN.ltb_nan.
Qed.

(** The score of a guess is above the initial [-inf]. *)
Lemma recognize_fold_guess_above models X lengths (l : list str) k :
  (foldl (fun a k => recognize_word_step models X lengths k a)
         (None, neg_infinity, ∅) l).1.1 = Some k ->
  exists s, word_score models X lengths k = Some s /\ PyFloat.gtb s neg_infinity = true.
Proof.
  assert (Hgen : forall g p,
             (foldl (fun a k => recognize_word_step models X lengths k a)
                    (None, neg_infinity, ∅) l).1 = (g, p) ->
             p = neg_infinity /\ g = None \/
             PyFloat.gtb p neg_infinity = true /\
             exists k, g = Some k /\ word_score models X lengths k = Some p).
  { induction l as [|x l IH] using rev_ind; intros g p.
    - intros [= <- <-]. now left.
    - rewrite foldl_snoc.
      destruct (foldl _ (None, neg_infinity, ∅) l) as [[g1 p1] wp1].
      specialize (IH g1 p1 eq_refl). unfold recognize_word_step.
      destruct (dict_get models x) as [[m|]|] eqn:Hx; simpl;
        try (intros [= <- <-]; exact IH).
      destruct (score m X lengths) as [s|] eqn:Hs; simpl;
        try (intros [= <- <-]; exact IH).
      destruct (PyFloat.gtb s p1) eqn:Hgt; simpl; intros [= <- <-]; [|exact IH].
      right. split.
      + destruct IH as [[-> _]|[Hp1 _]]; [exact Hgt|].
        eapply PyFloatFacts.gtb_trans; eassumption.
      + exists x. split; [reflexivity|]. unfold word_score. now rewrite Hx, Hs. }
  intros Hk.
  destruct (foldl _ (None, neg_infinity, ∅) l) as [[g p] wp]. simpl in Hk. subst g.
  destruct (Hgen (Some k) p eq_refl) as [[_ [=]]|[Hp (k' & [= <-] & Hs)]]. eauto.
Qed.

(** X20: a word whose model scores a test item [nan] is never the guess for
    that item: [nan] is above nothing. *)
Theorem recognize_nan_never_guessed (models : pydict (option Model))
    (test_set : SinglesData) (w : World) (i : Z) (k : str) :
  0 <= i < num_items test_set ->
  word_score models (get_item_Xlengths test_set i).1 (get_item_Xlengths test_set i).2 k
  = Some nan ->
  exists probabilities guesses guess,
    recognize models test_set w = (Return (probabilities, guesses), w) /\
    guesses !! Z.to_nat i = Some guess /\
    forall g, guess = Some g -> text g <> text k.
Proof.
  intros Hi Hnan. eexists _, _, _. split; [apply recognize_pure|].
  unfold range. rewrite !list_lookup_fmap, lookup_seqZ_lt by lia.
  rewrite Z.add_0_l, Z2Nat.id by lia. simpl. split; [reflexivity|].
  intros g Hg Ht. apply recognize_fold_guess_above in Hg as (s & Hs & Hgt).
  unfold word_score in Hs, Hnan. rewrite (dict_get_text _ _ _ Ht), Hnan in Hs.
  injection Hs as <-. unfold PyFloat.gtb in Hgt.
  rewrite PyFloatNaN.ltb_nan in Hgt. discriminate.
Qed.

End NaNScores.

(** ** SelectorDIC: rivals, cache and search *)

Section DICRuns.
Context `{Ext : Externals}.

(** X8: the rivals [SelectorDIC.select] averages over are the key objects of
    the corpus other than the object [this_word] itself.  When [this_word] is
    not one of the key objects (a string equal to a key, held in another
    object), every word of the corpus is a rival, the target word among
    them. *)
Theorem others_are_the_other_objects (self : ModelSelector) :
  (forall k, k ∈ others self <-> k ∈ dict_keys (words self) /\ k <> this_word self) /\
  (this_word self ∉ dict_keys (words self) -> others self = dict_keys (words self)).
Proof.
  unfold others, py_is. split.
  - intros k. rewrite !list_elem_of_In, filter_In.
    rewrite negb_true_iff, bool_decide_eq_false. reflexivity.
  - induction (dict_keys (words self)) as [|k ks IH]; intros Hnot; simpl; [reflexivity|].
    apply not_elem_of_cons in Hnot as [Hne Hnot].
    rewrite bool_decide_eq_false_2 by congruence. simpl. now rewrite IH.
Qed.

(** X9: when the cache is in place, [this_word] is the key object of the
    corpus and every failed entry holds the sentinel score, [select] rates
    the candidate [n] by the target word's cached log-likelihood minus the
    mean of the cached log-likelihoods of the words with another text whose
    entry has a model, passes over the candidates for which an entry is
    missing, and returns, without any trainer call, the cached model of the
    first candidate of maximal DIC.  When no candidate is rated above the
    initial [-inf] it returns the fallback. *)
Theorem SelectorDIC_select_maximal (self : ModelSelector) (w : World)
    (d : gmap (string * Z) (option Model * float)) :
  result_dict w = Some d ->
  (forall k, k ∈ dict_keys (words self) -> text k = text (this_word self) ->
             k = this_word self) ->
  (forall key s, d !! key = Some (None, s) -> s = neg_infinity) ->
  let candidates := range (min_n_components self) (max_n_components self + 1) in
  exists r w',
    SelectorDIC_select self w = (Return r, w') /\
    ((exists n model logL dic,
        n ∈ candidates /\
        d !! (text (this_word self), n) = Some (Some model, logL) /\
        DIC_claimed self d n = Some dic /\
        r = Some model /\ w' = w /\
        PyFloat.gtb dic neg_infinity = true /\
        (forall n' dic', n' ∈ candidates -> DIC_claimed self d n' = Some dic' ->
                         PyFloat.gtb dic' dic = false) /\
        (forall n' dic', n' ∈ candidates -> n' < n ->
                         DIC_claimed self d n' = Some dic' ->
                         PyFloat.geb dic' dic = false))
     \/
     ((forall n dic, n ∈ candidates -> DIC_claimed self d n = Some dic ->
                     PyFloat.gtb dic neg_infinity = false) /\
      r = fit (n_constant self) (random_state self) (X self) (lengths self) /\
      w' = more_fit_calls 1 w)).
Proof.
  intros Hd Hid Hwf candidates.
  assert (Hclaimed : forall n dic,
             DIC_claimed self d n = Some dic <->
             exists v, DIC_candidate self d n = Some (dic, v)).
  { intros n dic. rewrite (DIC_candidate_claimed self d n Hid).
    unfold DIC_claimed.
    destruct (d !! (text (this_word self), n)) as [e|]; simpl.
    2:{ split; [discriminate|]. intros [v [=]]. }
    destruct (cached_scores d n _) as [scores|]; simpl.
    2:{ split; [discriminate|]. intros [v [=]]. }
    split.
    - intros [= <-]. eauto.
    - intros [v [= <- _]]. reflexivity. }
  rewrite SelectorDIC_select_rest.
  erewrite bind_Return by (apply SelectorDIC_prepare_cached; exact Hd).
  rewrite SelectorDIC_rest_run.
  pose proof (scan_first_best PyFloat.gtb PyFloat.geb
                PyFloatFacts.gtb_irrefl PyFloatFacts.gtb_trans PyFloatFacts.geb_gtb_trans
                neg_infinity (DIC_candidate self d <$> candidates)) as Hscan.
  apply first_best_range in Hscan. fold candidates.
  destruct (foldl (pick PyFloat.gtb) (neg_infinity, None) (DIC_candidate self d <$> candidates))
    as [max_dic max_model] eqn:E.
  destruct Hscan as [[[= -> ->] Hnone]|(n & Hn & Hcand & Hgt & Hmax & Hfirst)]; simpl in *.
  - eexists _, _. split; [reflexivity|]. right. split; [|split; reflexivity].
    intros n dic Hn Hdic. apply Hclaimed in Hdic as [v Hv]. eapply Hnone; eassumption.
  - assert (Hentry : exists model logL,
               d !! (text (this_word self), n) = Some (Some model, logL) /\
               max_model = Some model).
    { unfold DIC_candidate in Hcand.
      destruct (d !! (text (this_word self), n)) as [[[model|] logL]|] eqn:He;
        simpl in Hcand; [| |discriminate].
      - destruct (cached_scores d n (others self)); [|discriminate].
        injection Hcand as _ <-. eauto.
      - destruct (cached_scores d n (others self)) as [scores|]; [|discriminate].
        injection Hcand as <- _. rewrite (Hwf _ _ He) in Hgt.
        rewrite PyFloatFacts.gtb_neg_infinity_sub in Hgt. discriminate. }
    destruct Hentry as (model & logL & He & ->).
    eexists _, _. split; [reflexivity|]. left.
    exists n, model, logL, max_dic. split; [exact Hn|]. split; [exact He|].
    split; [apply Hclaimed; eauto|]. split; [reflexivity|]. split; [reflexivity|].
    split; [exact Hgt|]. split.
    + intros n' dic' Hn' Hdic. apply Hclaimed in Hdic as [v Hv]. eapply Hmax; eassumption.
    + intros n' dic' Hn' Hlt Hdic. apply Hclaimed in Hdic as [v Hv].
      eapply Hfirst; eassumption.
Qed.

End DICRuns.

(** ** SelectorDIC.prepare in a process without cache *)

Section PrepareRuns.
Context `{Ext : Externals}.

Lemma prepared_entry_text (self : ModelSelector) (n : Z) (k k' : str) :
  text k = text k' -> prepared_entry self n k = prepared_entry self n k'.
Proof. intros Ht. unfold prepared_entry. now rewrite (dict_get_text _ _ _ Ht). Qed.

Lemma SelectorDIC_prepare_step_run (self : ModelSelector) (n : Z) (k : str)
    (d : gmap (string * Z) (option Model * float)) (w : World) :
  is_Some (dict_get (hwords self) k) ->
  SelectorDIC_prepare_step self n k d w
  = (Return (<[(text k, n) := prepared_entry self n k]> d),
     {| result_dict := Some (<[(text k, n) := prepared_entry self n k]> d);
        fit_calls := S (fit_calls w) |}).
Proof.
  intros [[X0 l0] Hk]. unfold SelectorDIC_prepare_step, prepared_entry. rewrite Hk.
  unfold mbind, M_bind, bind, or_raise, ret, try_except, GaussianHMM_fit, method_score,
    set_result_dict. simpl.
  destruct (fit n (random_state self) X0 l0) as [m|]; simpl; [|reflexivity].
  unfold or_raise, ret, raise. destruct (score m X0 l0); reflexivity.
Qed.

Lemma SelectorDIC_prepare_step_missing (self : ModelSelector) (n : Z) (k : str)
    (d : gmap (string * Z) (option Model * float)) (w : World) :
  dict_get (hwords self) k = None ->
  SelectorDIC_prepare_step self n k d w = (Raise KeyError, w).
Proof. intros Hk. unfold SelectorDIC_prepare_step. now rewrite Hk. Qed.

Lemma prepare_words_run (self : ModelSelector) (n : Z) (ks : list str)
    (d : gmap (string * Z) (option Model * float)) (w : World) :
  (forall k, k ∈ ks -> is_Some (dict_get (hwords self) k)) ->
  for_ ks (SelectorDIC_prepare_step self n) d w
  = (Return (filled_words self n ks d),
     prepared_world_after (length ks) (filled_words self n ks d) w).
Proof.
  revert d w. induction ks as [|k ks IH]; intros d w Hall; [reflexivity|].
  simpl. erewrite bind_Return
    by (apply SelectorDIC_prepare_step_run, Hall; now left).
  rewrite IH by (intros k' Hk'; apply Hall; now right).
  f_equal. unfold filled_words. simpl.
  destruct ks as [|k1 ks]; simpl; [reflexivity|]. f_equal. lia.
Qed.

Lemma prepare_range_run (self : ModelSelector) (ns : list Z) (ks : list str)
    (d : gmap (string * Z) (option Model * float)) (w : World) :
  (forall k, k ∈ ks -> is_Some (dict_get (hwords self) k)) ->
  for_ ns (fun n => for_ ks (SelectorDIC_prepare_step self n)) d w
  = (Return (filled self ns ks d),
     prepared_world_after (length ns * length ks) (filled self ns ks d) w).
Proof.
  intros Hall. revert d w. induction ns as [|n ns IH]; intros d w; [reflexivity|].
  simpl. erewrite bind_Return by (apply prepare_words_run; exact Hall).
  rewrite IH. f_equal. unfold filled. simpl.
  destruct (length ks) as [|m] eqn:Hks.
  - rewrite Nat.mul_0_r. reflexivity.
  - simpl. destruct (length ns * S m)%nat eqn:Hmul; simpl.
    + rewrite Nat.add_0_r. destruct ns; [reflexivity|simpl in Hmul; lia].
    + f_equal. lia.
Qed.

Lemma filled_words_lookup_in (self : ModelSelector) (n : Z) (ks : list str)
    (d : gmap (string * Z) (option Model * float)) (k : str) :
  k ∈ ks ->
  filled_words self n ks d !! (text k, n) = Some (prepared_entry self n k).
Proof.
  unfold filled_words. induction ks as [|k' ks IH] using rev_ind; intros Hk.
  - inversion Hk.
  - rewrite foldl_snoc.
    destruct (decide (text k' = text k)) as [Ht|Ht].
    + rewrite Ht, lookup_insert_eq. f_equal. now apply prepared_entry_text.
    + rewrite lookup_insert_ne by congruence.
      apply elem_of_app in Hk as [Hk|Hk]; [now apply IH|].
      apply list_elem_of_singleton in Hk. congruence.
Qed.

Lemma filled_words_lookup_other (self : ModelSelector) (n : Z) (ks : list str)
    (d : gmap (string * Z) (option Model * float)) (t : string) (m : Z) :
  m <> n \/ t ∉ text <$> ks ->
  filled_words self n ks d !! (t, m) = d !! (t, m).
Proof.
  unfold filled_words. induction ks as [|k' ks IH] using rev_ind; intros Hother;
    [reflexivity|].
  rewrite foldl_snoc, lookup_insert_ne.
  - apply IH. destruct Hother as [Hm|Ht]; [now left|right].
    rewrite fmap_app in Ht. intros Hin. apply Ht, elem_of_app. now left.
  - intros [= <- <-]. destruct Hother as [Hm|Ht]; [congruence|].
    apply Ht. rewrite fmap_app. apply elem_of_app. right. now left.
Qed.

Lemma filled_lookup_in (self : ModelSelector) (ns : list Z) (ks : list str)
    (d : gmap (string * Z) (option Model * float)) (n : Z) (k : str) :
  n ∈ ns -> k ∈ ks ->
  filled self ns ks d !! (text k, n) = Some (prepared_entry self n k).
Proof.
  unfold filled. induction ns as [|n' ns IH] using rev_ind; intros Hn Hk.
  - inversion Hn.
  - rewrite foldl_snoc.
    destruct (decide (n' = n)) as [->|Hne].
    + now apply filled_words_lookup_in.
    + rewrite filled_words_lookup_other by (left; congruence).
      apply elem_of_app in Hn as [Hn|Hn]; [now apply IH|].
      apply list_elem_of_singleton in Hn. congruence.
Qed.

Lemma filled_lookup_other (self : ModelSelector) (ns : list Z) (ks : list str)
    (d : gmap (string * Z) (option Model * float)) (t : string) (m : Z) :
  m ∉ ns \/ t ∉ text <$> ks ->
  filled self ns ks d !! (t, m) = d !! (t, m).
Proof.
  unfold filled. induction ns as [|n' ns IH] using rev_ind; intros Hother;
    [reflexivity|].
  rewrite foldl_snoc, filled_words_lookup_other.
  - apply IH. destruct Hother as [Hm|Ht]; [left|now right].
    intros Hin. apply Hm, elem_of_app. now left.
  - destruct Hother as [Hm|Ht]; [left|now right].
    intros ->. apply Hm, elem_of_app. right. now left.
Qed.

(** X11: in a process without cache, on a corpus whose words all have their
    data in [hwords], [prepare] returns a cache that holds, for every
    candidate [n] of the range and every word, the model trained at [n] on
    that word's data with its score, or the failure sentinel [(None, -inf)]
    when training or scoring failed, and holds nothing else.  It calls the
    trainer once per candidate and word, and binds the class attribute to
    the cache as soon as one entry is written. *)
Theorem SelectorDIC_prepare_fills (self : ModelSelector) (w : World) :
  result_dict w = None ->
  (forall k, k ∈ dict_keys (words self) -> is_Some (dict_get (hwords self) k)) ->
  let candidates := range (min_n_components self) (max_n_components self + 1) in
  let ks := dict_keys (words self) in
  exists d w',
    SelectorDIC_prepare self w = (Return d, w') /\
    (forall n k, n ∈ candidates -> k ∈ ks ->
                 d !! (text k, n) = Some (prepared_entry self n k)) /\
    (forall t n, n ∉ candidates \/ t ∉ text <$> ks -> d !! (t, n) = None) /\
    fit_calls w' = (length candidates * length ks + fit_calls w)%nat /\
    (candidates <> [] -> ks <> [] -> result_dict w' = Some d).
Proof.
  intros Hw Hall candidates ks.
  exists (filled self candidates ks ∅),
         (prepared_world_after (length candidates * length ks)
            (filled self candidates ks ∅) w).
  split.
  { unfold SelectorDIC_prepare, mbind at 1, M_bind at 1, bind at 1, get_result_dict.
    rewrite Hw. apply prepare_range_run. exact Hall. }
  split; [intros n k Hn Hk; now apply filled_lookup_in|].
  split; [intros t n Hother; now rewrite filled_lookup_other|].
  split.
  - unfold prepared_world_after. destruct (length candidates * length ks)%nat; reflexivity.
  - intros Hc Hk. unfold prepared_world_after.
    destruct (length candidates * length ks)%nat eqn:Hmul; [|reflexivity].
    destruct candidates, ks; simpl in *; try congruence; lia.
Qed.

(** A loop over the words raises [KeyError] at the first word without data. *)
Lemma prepare_words_missing (self : ModelSelector) (n : Z) (ks : list str)
    (d : gmap (string * Z) (option Model * float)) (w : World) :
  (exists k, k ∈ ks /\ dict_get (hwords self) k = None) ->
  exists w', for_ ks (SelectorDIC_prepare_step self n) d w = (Raise KeyError, w').
Proof.
  revert d w. induction ks as [|k ks IH]; intros d w (k0 & Hin & Hmiss).
  - inversion Hin.
  - simpl. destruct (dict_get (hwords self) k) as [Xl|] eqn:Hk.
    + erewrite bind_Return by (apply SelectorDIC_prepare_step_run; rewrite Hk; eauto).
      apply IH. exists k0. split; [|exact Hmiss].
      inversion Hin; subst; [congruence|assumption].
    + erewrite bind_Raise by (apply SelectorDIC_prepare_step_missing; exact Hk). eauto.
Qed.

(** X12: in a process without cache, when some word of the corpus has no
    data in [hwords] and the range has a candidate, the lookup
    [self.hwords[w]], which is outside the [try], lets its [KeyError] escape
    from [prepare], and [select] passes it on to the caller. *)
Theorem SelectorDIC_select_missing_word (self : ModelSelector) (w : World) :
  result_dict w = None ->
  range (min_n_components self) (max_n_components self + 1) <> [] ->
  (exists k, k ∈ dict_keys (words self) /\ dict_get (hwords self) k = None) ->
  exists w',
    SelectorDIC_prepare self w = (Raise KeyError, w') /\
    SelectorDIC_select self w = (Raise KeyError, w').
Proof.
  intros Hw Hrange Hmiss.
  assert (Hprep : exists w', SelectorDIC_prepare self w = (Raise KeyError, w')).
  { unfold SelectorDIC_prepare, mbind at 1, M_bind at 1, bind at 1, get_result_dict.
    rewrite Hw.
    destruct (range (min_n_components self) (max_n_components self + 1)) as [|n ns];
      [congruence|].
    simpl. destruct (prepare_words_missing self n _ ∅ w Hmiss) as [w' Hraise].
    exists w'. now erewrite bind_Raise by exact Hraise. }
  destruct Hprep as [w' Hprep]. exists w'. split; [exact Hprep|].
  rewrite SelectorDIC_select_rest. now erewrite bind_Raise by exact Hprep.
Qed.

(** Whatever a loop does, a property of the world that every step keeps
    holds when the loop ends, with a result or with an exception. *)
Lemma for_world_invariant {A B} (P : World -> Prop) (l : list B) (body : B -> A -> M A) :
  (forall x a w, P w -> P (body x a w).2) ->
  forall a w, P w -> P (for_ l body a w).2.
Proof.
  intros Hbody. induction l as [|x l IH]; intros a w HP; simpl; [exact HP|].
  unfold mbind, M_bind, bind.
  pose proof (Hbody x a w HP) as Hx.
  destruct (body x a w) as [[a1|e] w1]; simpl in *; [now apply IH|exact Hx].
Qed.

Lemma SelectorDIC_prepare_step_keeps_attribute (self : ModelSelector) (n : Z) (k : str)
    (d : gmap (string * Z) (option Model * float)) (w : World) :
  is_Some (result_dict w) ->
  is_Some (result_dict (SelectorDIC_prepare_step self n k d w).2).
Proof.
  intros Hw. destruct (dict_get (hwords self) k) as [Xl|] eqn:Hk.
  - rewrite SelectorDIC_prepare_step_run by (rewrite Hk; eauto). simpl. eauto.
  - rewrite SelectorDIC_prepare_step_missing by exact Hk. exact Hw.
Qed.

(** X13: the [KeyError] of a later word leaves a partial cache behind.  In a
    process without cache, when the first word of the corpus has its data
    and a later one has not, [select] raises, but the class attribute is by
    then bound to the entries written so far; the next [select] of the same
    selector finds it, trains nothing for the missing entries and returns
    without raising. *)
Theorem SelectorDIC_select_after_KeyError (self : ModelSelector) (w : World)
    (n : Z) (ns : list Z) (k : str) (ks : list str) :
  result_dict w = None ->
  range (min_n_components self) (max_n_components self + 1) = n :: ns ->
  dict_keys (words self) = k :: ks ->
  is_Some (dict_get (hwords self) k) ->
  (exists k', k' ∈ ks /\ dict_get (hwords self) k' = None) ->
  exists w' partial r w'',
    SelectorDIC_select self w = (Raise KeyError, w') /\
    result_dict w' = Some partial /\
    SelectorDIC_select self w' = (Return r, w'') /\
    result_dict w'' = Some partial.
Proof.
  intros Hw Hrange Hkeys Hk (k' & Hin & Hmiss).
  assert (Hinner : exists w',
             for_ (k :: ks) (SelectorDIC_prepare_step self n) ∅ w = (Raise KeyError, w') /\
             is_Some (result_dict w')).
  { simpl.
    erewrite bind_Return by (apply SelectorDIC_prepare_step_run; exact Hk).
    set (d1 := <[(text k, n) := prepared_entry self n k]> ∅).
    set (w1 := {| result_dict := Some d1; fit_calls := S (fit_calls w) |}).
    destruct (prepare_words_missing self n ks d1 w1) as [w' Hrest]; [eauto|].
    exists w'. split; [exact Hrest|].
    pose proof (for_world_invariant (fun w => is_Some (result_dict w)) ks
                  (SelectorDIC_prepare_step self n)
                  (fun x a w => SelectorDIC_prepare_step_keeps_attribute self n x a w)
                  d1 w1 ltac:(simpl; eauto)) as Hinv.
    now rewrite Hrest in Hinv. }
  assert (Hraise : exists w', SelectorDIC_prepare self w = (Raise KeyError, w') /\
                              is_Some (result_dict w')).
  { destruct Hinner as (w' & Hinner & Hsome). exists w'. split; [|exact Hsome].
    unfold SelectorDIC_prepare, mbind at 1, M_bind at 1, bind at 1, get_result_dict.
    rewrite Hw, Hrange, Hkeys.
    change (for_ (n :: ns) ?body ?a) with (a' ← body n a; for_ ns body a').
    now erewrite bind_Raise by exact Hinner. }
  destruct Hraise as (w' & Hprep & [partial Hpartial]).
  assert (Hagain : SelectorDIC_select self w'
                   = SelectorDIC_rest self partial w').
  { rewrite SelectorDIC_select_rest.
    now erewrite bind_Return by (apply SelectorDIC_prepare_cached; exact Hpartial). }
  pose proof (keeps_DIC_rest self partial w') as Hkeep.
  pose proof (SelectorDIC_rest_run self partial w') as Hrun. simpl in Hrun.
  exists w', partial.
  destruct (SelectorDIC_rest self partial w') as [r w''] eqn:Hrest.
  assert (Hret : exists r0, r = Return r0).
  { destruct (foldl _ _ _) as [s [m|]]; injection Hrun as -> _; eauto. }
  destruct Hret as [r0 ->]. exists r0, w''.
  split; [rewrite SelectorDIC_select_rest; now erewrite bind_Raise by exact Hprep|].
  split; [exact Hpartial|]. split; [exact Hagain|].
  simpl in Hkeep. congruence.
Qed.

(** X14: in a process without cache, on a corpus whose words all have their
    data, [SelectorDIC.select] returns: it makes one trainer call per
    candidate and word to fill the cache, and at most one more for the
    fallback. *)
Theorem SelectorDIC_select_fresh (self : ModelSelector) (w : World) :
  result_dict w = None ->
  (forall k, k ∈ dict_keys (words self) -> is_Some (dict_get (hwords self) k)) ->
  let trainings :=
    (length (range (min_n_components self) (max_n_components self + 1))
     * length (dict_keys (words self)))%nat in
  exists r w',
    SelectorDIC_select self w = (Return r, w') /\
    ((exists model, r = Some model /\ fit_calls w' = (trainings + fit_calls w)%nat)
     \/
     (r = fit (n_constant self) (random_state self) (X self) (lengths self) /\
      fit_calls w' = S (trainings + fit_calls w))).
Proof.
  intros Hw Hall trainings.
  rewrite SelectorDIC_select_rest.
  erewrite bind_Return.
  2:{ unfold SelectorDIC_prepare, mbind at 1, M_bind at 1, bind at 1, get_result_dict.
      rewrite Hw. apply prepare_range_run. exact Hall. }
  rewrite SelectorDIC_rest_run. fold trainings.
  assert (Hcalls : forall d,
             fit_calls (prepared_world_after trainings d w) = (trainings + fit_calls w)%nat).
  { intros d. unfold prepared_world_after. destruct trainings; reflexivity. }
  destruct (foldl _ _ _) as [max_dic [model|]]; simpl.
  - eexists _, _. split; [reflexivity|]. left. eexists. split; [reflexivity|apply Hcalls].
  - eexists _, _. split; [reflexivity|]. right. split; [reflexivity|].
    simpl. now rewrite Hcalls.
Qed.

End PrepareRuns.

(** ** SelectorCV: which model comes back *)

Section CVModel.
Context `{Ext : Externals}.

(** [word_model] after the folds: the model of the last fold whose training
    succeeded, its former binding when none did. *)
Lemma CV_folds_last (self : ModelSelector) (n : Z)
    (folds : list (list nat * list nat)) (res : list float) (wm : option Model) :
  let wm' := (foldl (fun a split => CV_fold_step self n split a) (res, wm) folds).2 in
  (wm' = wm /\ forall split, split ∈ folds -> fold_fit self n split = None)
  \/
  (exists pre split post model,
     folds = pre ++ split :: post /\ wm' = Some model /\
     fold_fit self n split = Some model /\
     forall later, later ∈ post -> fold_fit self n later = None).
Proof.
  induction folds as [|split folds IH] using rev_ind; simpl.
  - left. split; [reflexivity|]. intros split Hin. inversion Hin.
  - rewrite foldl_snoc.
    destruct (foldl _ (res, wm) folds) as [res1 wm1]. simpl in IH.
    assert (Hstep : (CV_fold_step self n split (res1, wm1)).2
                    = match fold_fit self n split with
                      | Some m => Some m
                      | None => wm1
                      end).
    { unfold CV_fold_step, fold_fit.
      destruct (fit n (random_state self) _ _) as [m|]; [|reflexivity].
      destruct (score m _ _); reflexivity. }
    rewrite Hstep. clear Hstep.
    destruct (fold_fit self n split) as [m|] eqn:Hfit.
    + right. exists folds, split, [], m. split; [reflexivity|]. split; [reflexivity|].
      split; [exact Hfit|]. intros later Hin. inversion Hin.
    + destruct IH as [[-> Hall]|(pre & s0 & post & model & -> & -> & Hs0 & Hpost)].
      * left. split; [reflexivity|]. intros s Hin.
        apply elem_of_app in Hin as [Hin|Hin]; [now apply Hall|].
        apply list_elem_of_singleton in Hin. now subst.
      * right. exists pre, s0, (post ++ [split]), model.
        split; [now rewrite <- app_assoc|]. split; [reflexivity|].
        split; [exact Hs0|]. intros later Hin.
        apply elem_of_app in Hin as [Hin|Hin]; [now apply Hpost|].
        apply list_elem_of_singleton in Hin. now subst.
Qed.

(** X15: when the word has at least three sequences and some candidate has
    an average held-out log-likelihood above the initial [-inf],
    [SelectorCV.select] returns the model of the last fold, in the order of
    the split, whose training succeeded at the winning state count [n],
    whether or not the held-out scoring of that very fold succeeded; [n] is
    the first candidate of maximal average, and at least one of its folds
    was scored.  When no candidate has an average above [-inf], [select]
    returns what training at [n_constant] gives. *)
Theorem SelectorCV_select_last_fold (self : ModelSelector) (w : World) :
  3 <= len (sequences self) ->
  let candidates := range (min_n_components self) (max_n_components self + 1) in
  let folds := KFold_split 3 (sequences self) in
  let scores n := omap (CV_fold_score self n) folds in
  let average n := np_average (scores n) in
  exists r w',
    SelectorCV_select self w = (Return r, w') /\
    ((exists n model pre split post,
        r = Some model /\ n ∈ candidates /\ scores n <> [] /\
        PyFloat.gtb (average n) neg_infinity = true /\
        (forall n', n' ∈ candidates -> scores n' <> [] ->
                    PyFloat.gtb (average n') (average n) = false) /\
        (forall n', n' ∈ candidates -> n' < n -> scores n' <> [] ->
                    PyFloat.geb (average n') (average n) = false) /\
        folds = pre ++ split :: post /\
        fold_fit self n split = Some model /\
        forall later, later ∈ post -> fold_fit self n later = None)
     \/
     ((forall n, n ∈ candidates -> scores n <> [] ->
                 PyFloat.gtb (average n) neg_infinity = false) /\
      r = fit (n_constant self) (random_state self) (X self) (lengths self))).
Proof.
  intros Hlen candidates folds scores average.
  pose proof (scan_first_best PyFloat.gtb PyFloat.geb
                PyFloatFacts.gtb_irrefl PyFloatFacts.gtb_trans PyFloatFacts.geb_gtb_trans
                neg_infinity (CV_candidate self <$> candidates)) as Hscan.
  apply first_best_range in Hscan.
  destruct (SelectorCV_loop_pure self candidates neg_infinity None None w Hlen)
    as (wm & w1 & Hloop).
  unfold SelectorCV_select, SelectorCV_loop. fold candidates.
  erewrite bind_Return by exact Hloop.
  destruct (foldl (pick PyFloat.gtb) (neg_infinity, None) (CV_candidate self <$> candidates))
    as [max_cv max_model] eqn:E.
  destruct Hscan as [[[= -> ->] Hnone]|(n & Hn & Hcand & Hgt & Hmax & Hfirst)].
  - rewrite base_model_run. eexists _, _. split; [reflexivity|]. right.
    split; [|reflexivity].
    intros n Hn Hne. destruct (CV_candidate_average self n Hne) as [v Hv].
    eapply Hnone; eassumption.
  - pose proof Hcand as Hlast.
    destruct (CV_candidate_Some _ _ _ _ Hcand) as (Hne & Havg & model & -> & _).
    simpl in Hgt, Hmax, Hfirst, Havg. subst max_cv.
    unfold CV_candidate in Hlast. fold folds in Hlast.
    destruct (0 <? len (omap (CV_fold_score self n) folds)); [|discriminate].
    injection Hlast as Hlast.
    eexists _, _. split; [reflexivity|]. left.
    destruct (CV_folds_last self n folds [] None)
      as [[Hsame _]|(pre & split & post & model' & Hfolds & Hwm & Hfit & Hpost)].
    + simpl in Hsame. congruence.
    + simpl in Hwm. rewrite Hlast in Hwm. injection Hwm as <-.
      exists n, model, pre, split, post.
      split; [reflexivity|]. split; [exact Hn|]. split; [exact Hne|].
      split; [exact Hgt|]. split; [|split; [|auto]].
      * intros n' Hn' Hne'. destruct (CV_candidate_average self n' Hne') as [v Hv].
        eapply Hmax; eassumption.
      * intros n' Hn' Hlt Hne'. destruct (CV_candidate_average self n' Hne') as [v Hv].
        eapply Hfirst; eassumption.
Qed.

End CVModel.

Section CacheShape.
Context `{Ext : Externals}.

Lemma prepared_entry_sentinel (self : ModelSelector) (n : Z) (k : str) (s : float) :
  prepared_entry self n k = (None, s) -> s = neg_infinity.
Proof.
  unfold prepared_entry.
  destruct (dict_get (hwords self) k) as [[X0 l0]|]; [|now intros [= <-]].
  destruct (fit n (random_state self) X0 l0) as [m|]; [|now intros [= <-]].
  destruct (score m X0 l0); [discriminate|now intros [= <-]].
Qed.

Lemma filled_words_sentinel (self : ModelSelector) (n : Z) (ks : list str)
    (d : gmap (string * Z) (option Model * float)) :
  sentinel_on_failure d -> sentinel_on_failure (filled_words self n ks d).
Proof.
  unfold filled_words. induction ks as [|k ks IH] using rev_ind; intros Hd; [exact Hd|].
  rewrite foldl_snoc. intros key s. rewrite lookup_insert. case_decide.
  - intros [= Hentry]. eapply prepared_entry_sentinel; eassumption.
  - now apply IH.
Qed.

(** Every entry [prepare] writes without a model holds the score [-inf]. *)
Lemma filled_sentinel (self : ModelSelector) (ns : list Z) (ks : list str)
    (d : gmap (string * Z) (option Model * float)) :
  sentinel_on_failure d -> sentinel_on_failure (filled self ns ks d).
Proof.
  unfold filled. induction ns as [|n ns IH] using rev_ind; intros Hd; [exact Hd|].
  rewrite foldl_snoc. now apply filled_words_sentinel, IH.
Qed.

End CacheShape.

(** ** The theorems at the rigged corpus *)

(** Word A has four frames of one feature; its BIC is 72 at 2 states and 44
    at 3 states, and [select] returns the model of 3 states. *)
Lemma SelectorBIC_select_minimal_witness :
  X Rigged.selector_A = [0%float] :: [[0]; [-30]; [-10]]%float /\
  exists model w',
    SelectorBIC_select (Ext := Rigged.externals) Rigged.selector_A Rigged.fresh
    = (Return (Some model), w') /\
    Rigged.states model = 3.
Proof.
  split; [reflexivity|].
  destruct (SelectorBIC_select_minimal (Ext := Rigged.externals) Rigged.selector_A
              Rigged.fresh [0%float] [[0]; [-30]; [-10]]%float eq_refl)
    as (r & w' & Hsel & _).
  assert (Hr : r = Some {| Rigged.states := 3;
                           Rigged.trained_on := X Rigged.selector_A |}).
  { assert (H1 : (SelectorBIC_select (Ext := Rigged.externals) Rigged.selector_A
                    Rigged.fresh).1 = Return r) by now rewrite Hsel.
    vm_compute in H1. now injection H1 as <-. }
  subst r. eexists _, w'. split; [exact Hsel|reflexivity].
Defined.

(** Word A has two sequences: its cross-validation falls back at once. *)
Lemma SelectorCV_select_too_few_witness :
  len (sequences Rigged.selector_A) < 3 /\
  SelectorCV_select (Ext := Rigged.externals) Rigged.selector_A Rigged.fresh
  = (Return (fit (Externals := Rigged.externals) (n_constant Rigged.selector_A)
               (random_state Rigged.selector_A) (X Rigged.selector_A)
               (lengths Rigged.selector_A)),
     more_fit_calls 1 Rigged.fresh).
Proof.
  assert (H : len (sequences Rigged.selector_A) < 3) by reflexivity.
  split; [exact H|].
  apply (SelectorCV_select_too_few (Ext := Rigged.externals) Rigged.selector_A
           Rigged.fresh H).
Defined.

(** Word C has three sequences: its cross-validation returns. *)
Lemma SelectorCV_select_best_average_witness :
  3 <= len (sequences Rigged.selector_C) /\
  exists r w',
    SelectorCV_select (Ext := Rigged.externals) Rigged.selector_C Rigged.fresh
    = (Return r, w').
Proof.
  assert (H : 3 <= len (sequences Rigged.selector_C)) by (vm_compute; discriminate).
  split; [exact H|].
  destruct (SelectorCV_select_best_average (Ext := Rigged.externals) Rigged.selector_C
              Rigged.fresh H) as (r & w' & Hsel & _).
  exists r, w'. exact Hsel.
Defined.

(** The cache left by the first selection is reused by a selector for word B. *)
Lemma SelectorDIC_prepare_reuses_cache_witness :
  let d := default ∅ (result_dict Rigged.after_first_DIC) in
  result_dict Rigged.after_first_DIC = Some d /\
  SelectorDIC_prepare (Ext := Rigged.externals) Rigged.selector_B Rigged.after_first_DIC
  = (Return d, Rigged.after_first_DIC).
Proof.
  intros d.
  assert (H : result_dict Rigged.after_first_DIC = Some d) by reflexivity.
  split; [exact H|].
  exact (proj1 (SelectorDIC_prepare_reuses_cache (Ext := Rigged.externals)
                  Rigged.selector_B Rigged.after_first_DIC d H)).
Defined.

(** With the cache left by the first selection, a selection for word B
    returns and leaves the cache as it is. *)
Lemma SelectorDIC_select_cached_witness :
  let d := default ∅ (result_dict Rigged.after_first_DIC) in
  result_dict Rigged.after_first_DIC = Some d /\
  exists r w',
    SelectorDIC_select (Ext := Rigged.externals) Rigged.selector_B Rigged.after_first_DIC
    = (Return r, w') /\
    result_dict w' = Some d.
Proof.
  intros d.
  assert (H : result_dict Rigged.after_first_DIC = Some d) by reflexivity.
  split; [exact H|].
  destruct (SelectorDIC_select_cached (Ext := Rigged.externals) Rigged.selector_B
              Rigged.after_first_DIC d H)
    as (_ & max_dic & max_model & r & w' & _ & Hsel & Hd & _).
  exists r, w'. split; [exact Hsel|exact Hd].
Defined.

(** Word D: the BIC search keeps nothing, the fallback fails, [None] comes
    back. *)
Lemma select_fallback_witness :
  let w1 : World (Ext := Rigged.externals) := {| result_dict := None; fit_calls := 2 |} in
  search (Ext := Rigged.externals) BIC Rigged.selector_D Rigged.fresh = (Return None, w1) /\
  select (Ext := Rigged.externals) BIC Rigged.selector_D Rigged.fresh
  = (Return None, more_fit_calls 1 w1).
Proof.
  intros w1.
  assert (H : search (Ext := Rigged.externals) BIC Rigged.selector_D Rigged.fresh
              = (Return None, w1)) by reflexivity.
  split; [exact H|].
  exact (select_fallback (Ext := Rigged.externals) BIC Rigged.selector_D Rigged.fresh w1 H).
Defined.

(** Two DIC selections for word A in a row, the first in a fresh process. *)
Lemma select_idempotent_witness :
  exists r w1 w2,
    select (Ext := Rigged.externals) DIC Rigged.selector_A Rigged.fresh = (Return r, w1) /\
    select (Ext := Rigged.externals) DIC Rigged.selector_A w1 = (Return r, w2).
Proof.
  assert (H : select (Ext := Rigged.externals) DIC Rigged.selector_A Rigged.fresh
              = (Return (Some {| Rigged.states := 2;
                                 Rigged.trained_on := X Rigged.selector_A |}),
                 Rigged.after_first_DIC))
    by reflexivity.
  destruct (select_idempotent (Ext := Rigged.externals) DIC Rigged.selector_A
              Rigged.fresh _ _ H) as (r2 & w2 & H2 & -> & _).
  eexists _, _, w2. split; [exact H|exact H2].
Defined.

(** ** The further properties at the rigged corpus *)

(** The item is scored -5 by the model of A and -3 by the model of B. *)
Lemma recognize_guess_is_first_maximum_witness :
  0 <= 0 < num_items Rigged.one_item /\
  exists probabilities guesses guess,
    recognize (Ext := Rigged.externals) Rigged.two_models Rigged.one_item Rigged.fresh
    = (Return (probabilities, guesses), Rigged.fresh) /\
    guesses !! Z.to_nat 0 = Some guess.
Proof.
  assert (H : 0 <= 0 < num_items Rigged.one_item) by (simpl; lia).
  split; [exact H|].
  destruct (recognize_guess_is_first_maximum (Ext := Rigged.externals)
              Rigged.two_models Rigged.one_item Rigged.fresh 0 H)
    as (probabilities & guesses & guess & Hrun & Hguess & _).
  exists probabilities, guesses, guess. split; [exact Hrun|exact Hguess].
Defined.

(** Word E has no frame. *)
Lemma SelectorBIC_select_no_frames_witness :
  X Rigged.selector_E = [] /\
  exists w',
    SelectorBIC_select (Ext := Rigged.externals) Rigged.selector_E Rigged.fresh
    = (Return (fit (Externals := Rigged.externals) (n_constant Rigged.selector_E)
                 (random_state Rigged.selector_E) [] (lengths Rigged.selector_E)), w').
Proof.
  split; [reflexivity|].
  apply (SelectorBIC_select_no_frames (Ext := Rigged.externals) Rigged.selector_E
           Rigged.fresh eq_refl).
Defined.

(** Word C has three sequences. *)
Lemma SelectorCV_select_calls_witness :
  3 <= len (sequences Rigged.selector_C) /\
  exists r w',
    SelectorCV_select (Ext := Rigged.externals) Rigged.selector_C Rigged.fresh
    = (Return r, w').
Proof.
  assert (H : 3 <= len (sequences Rigged.selector_C)) by (vm_compute; discriminate).
  split; [exact H|].
  destruct (SelectorCV_select_calls (Ext := Rigged.externals) Rigged.selector_C
              Rigged.fresh H) as (max_cv & max_model & wm & _ & Hsel).
  destruct max_model; eexists _, _; exact Hsel.
Defined.

Lemma SelectorCV_select_last_fold_witness :
  3 <= len (sequences Rigged.selector_C) /\
  exists r w',
    SelectorCV_select (Ext := Rigged.externals) Rigged.selector_C Rigged.fresh
    = (Return r, w').
Proof.
  assert (H : 3 <= len (sequences Rigged.selector_C)) by (vm_compute; discriminate).
  split; [exact H|].
  destruct (SelectorCV_select_last_fold (Ext := Rigged.externals) Rigged.selector_C
              Rigged.fresh H) as (r & w' & Hsel & _).
  exists r, w'. exact Hsel.
Defined.

Lemma select_without_cache_returns_witness :
  BIC <> DIC /\
  exists r w',
    select (Ext := Rigged.externals) BIC Rigged.selector_A Rigged.fresh = (Return r, w') /\
    result_dict w' = result_dict Rigged.fresh.
Proof.
  assert (H : BIC <> DIC) by discriminate.
  split; [exact H|].
  apply (select_without_cache_returns (Ext := Rigged.externals) BIC Rigged.selector_A
           Rigged.fresh H).
Defined.

Lemma select_empty_range_witness :
  max_n_components Rigged.selector_A_no_range < min_n_components Rigged.selector_A_no_range /\
  select (Ext := Rigged.externals) DIC Rigged.selector_A_no_range Rigged.fresh
  = (Return (fit (Externals := Rigged.externals) 3 14 (X Rigged.selector_A_no_range)
               (lengths Rigged.selector_A_no_range)),
     more_fit_calls 1 Rigged.fresh).
Proof.
  assert (H : max_n_components Rigged.selector_A_no_range
              < min_n_components Rigged.selector_A_no_range) by (simpl; lia).
  split; [exact H|].
  apply (select_empty_range (Ext := Rigged.externals) DIC Rigged.selector_A_no_range
           Rigged.fresh H).
Defined.

Lemma rigged_key_objects (k : str) :
  k ∈ dict_keys (words Rigged.selector_A) -> text k = text (this_word Rigged.selector_A) ->
  k = this_word Rigged.selector_A.
Proof.
  intros Hk Ht. simpl in Hk.
  repeat (apply elem_of_cons in Hk as [->|Hk]; [try reflexivity; discriminate|]).
  inversion Hk.
Qed.

Lemma rigged_cache_filled :
  result_dict Rigged.after_first_DIC
  = Some (filled (Ext := Rigged.externals) Rigged.selector_A [2; 3]
            (dict_keys Rigged.corpus_sequences) ∅).
Proof. reflexivity. Qed.

Lemma rigged_cache_sentinel key s :
  filled (Ext := Rigged.externals) Rigged.selector_A [2; 3]
    (dict_keys Rigged.corpus_sequences) ∅ !! key = Some (None, s) ->
  s = neg_infinity.
Proof.
  apply (filled_sentinel (Ext := Rigged.externals)).
  intros key' s'. rewrite lookup_empty. discriminate.
Qed.

(** The cache left by the first selection, and the selector of word A, whose
    [this_word] is the key object. *)
Lemma SelectorDIC_select_maximal_witness :
  exists r w',
    SelectorDIC_select (Ext := Rigged.externals) Rigged.selector_A Rigged.after_first_DIC
    = (Return r, w').
Proof.
  destruct (SelectorDIC_select_maximal (Ext := Rigged.externals) Rigged.selector_A
              Rigged.after_first_DIC _ rigged_cache_filled rigged_key_objects
              rigged_cache_sentinel) as (r & w' & Hsel & _).
  exists r, w'. exact Hsel.
Defined.

(** Word D failed at 2 states. *)
Lemma SelectorDIC_failed_target_skipped_witness :
  let d := filled (Ext := Rigged.externals) Rigged.selector_A [2; 3]
             (dict_keys Rigged.corpus_sequences) ∅ in
  d !! (text (this_word Rigged.selector_D), 2) = Some (None, neg_infinity) /\
  SelectorDIC_body (Ext := Rigged.externals) Rigged.selector_D d 2 (neg_infinity, None)
                   Rigged.fresh
  = (Return (neg_infinity, None), Rigged.fresh).
Proof.
  intros d.
  assert (H : d !! (text (this_word Rigged.selector_D), 2) = Some (None, neg_infinity))
    by reflexivity.
  split; [exact H|].
  apply (SelectorDIC_failed_target_skipped (Ext := Rigged.externals) Rigged.selector_D
           d 2 (neg_infinity, None) Rigged.fresh H).
Defined.

Lemma rigged_corpus_has_data (k : str) :
  k ∈ dict_keys (words Rigged.selector_A) ->
  is_Some (dict_get (hwords Rigged.selector_A) k).
Proof.
  intros Hk. simpl in Hk.
  repeat (apply elem_of_cons in Hk as [->|Hk]; [simpl; eauto|]).
  inversion Hk.
Qed.

Lemma SelectorDIC_prepare_fills_witness :
  result_dict Rigged.fresh = None /\
  exists d w',
    SelectorDIC_prepare (Ext := Rigged.externals) Rigged.selector_A Rigged.fresh
    = (Return d, w') /\
    fit_calls w' = 6%nat.
Proof.
  split; [reflexivity|].
  destruct (SelectorDIC_prepare_fills (Ext := Rigged.externals) Rigged.selector_A
              Rigged.fresh eq_refl rigged_corpus_has_data)
    as (d & w' & Hprep & _ & _ & Hcalls & _).
  exists d, w'. split; [exact Hprep|exact Hcalls].
Defined.

Lemma SelectorDIC_select_fresh_witness :
  result_dict Rigged.fresh = None /\
  exists r w',
    SelectorDIC_select (Ext := Rigged.externals) Rigged.selector_A Rigged.fresh
    = (Return r, w').
Proof.
  split; [reflexivity|].
  destruct (SelectorDIC_select_fresh (Ext := Rigged.externals) Rigged.selector_A
              Rigged.fresh eq_refl rigged_corpus_has_data) as (r & w' & Hsel & _).
  exists r, w'. exact Hsel.
Defined.

Lemma rigged_word_B_missing :
  exists k, k ∈ [Rigged.word_B; Rigged.word_D] /\
            dict_get (hwords Rigged.selector_A_missing) k = None.
Proof. exists Rigged.word_B. split; [now left|reflexivity]. Qed.

Lemma SelectorDIC_select_missing_word_witness :
  exists w',
    SelectorDIC_select (Ext := Rigged.externals) Rigged.selector_A_missing Rigged.fresh
    = (Raise KeyError, w').
Proof.
  destruct (SelectorDIC_select_missing_word (Ext := Rigged.externals)
              Rigged.selector_A_missing Rigged.fresh eq_refl) as (w' & _ & Hsel).
  - discriminate.
  - destruct rigged_word_B_missing as (k & Hk & Hmiss).
    exists k. split; [now right|exact Hmiss].
  - exists w'. exact Hsel.
Defined.

Lemma SelectorDIC_select_after_KeyError_witness :
  exists w' partial r w'',
    SelectorDIC_select (Ext := Rigged.externals) Rigged.selector_A_missing Rigged.fresh
    = (Raise KeyError, w') /\
    result_dict w' = Some partial /\
    SelectorDIC_select (Ext := Rigged.externals) Rigged.selector_A_missing w'
    = (Return r, w'').
Proof.
  destruct (SelectorDIC_select_after_KeyError (Ext := Rigged.externals)
              Rigged.selector_A_missing Rigged.fresh 2 [3] Rigged.word_A
              [Rigged.word_B; Rigged.word_D] eq_refl eq_refl eq_refl
              (ex_intro _ _ eq_refl) rigged_word_B_missing)
    as (w' & partial & r & w'' & H1 & H2 & H3 & _).
  exists w', partial, r, w''. auto.
Defined.

Lemma recognize_table_words_witness :
  0 <= 0 < num_items Rigged.one_item /\
  exists probabilities guesses wp,
    recognize (Ext := Rigged.externals) Rigged.two_models Rigged.one_item Rigged.fresh
    = (Return (probabilities, guesses), Rigged.fresh) /\
    probabilities !! Z.to_nat 0 = Some wp /\
    dom wp = list_to_set (text <$> dict_keys Rigged.two_models).
Proof.
  assert (H : 0 <= 0 < num_items Rigged.one_item) by (simpl; lia).
  split; [exact H|].
  apply (recognize_table_words (Ext := Rigged.externals) Rigged.two_models
           Rigged.one_item Rigged.fresh 0 H).
Defined.

(** The models map a failed selection for word D leaves: D has no model. *)
Lemma recognize_None_model_witness :
  let models : pydict (option Rigged.model) :=
    Rigged.two_models ++ [(Rigged.word_D, None)] in
  dict_get models Rigged.word_D = Some None /\
  exists probabilities guesses wp guess,
    recognize (Ext := Rigged.externals) models Rigged.one_item Rigged.fresh
    = (Return (probabilities, guesses), Rigged.fresh) /\
    probabilities !! Z.to_nat 0 = Some wp /\
    guesses !! Z.to_nat 0 = Some guess /\
    wp !! text Rigged.word_D = Some neg_infinity.
Proof.
  intros models.
  assert (Hk : dict_get models Rigged.word_D = Some None) by reflexivity.
  split; [exact Hk|].
  destruct (recognize_None_model (Ext := Rigged.externals) models Rigged.one_item
              Rigged.fresh 0 Rigged.word_D ltac:(simpl; lia) Hk)
    as (probabilities & guesses & wp & guess & H1 & H2 & H3 & H4 & _).
  exists probabilities, guesses, wp, guess. auto.
Defined.

(** Word N scores [nan] at 2 states. *)
Lemma SelectorBIC_nan_skipped_witness :
  SelectorBIC_body (Ext := Rigged.externals) Rigged.selector_N 2 (infinity, None) Rigged.fresh
  = (Return (infinity, None), more_fit_calls 1 Rigged.fresh).
Proof.
  apply (SelectorBIC_nan_skipped (Ext := Rigged.externals) Rigged.selector_N 2
           {| Rigged.states := 2; Rigged.trained_on := X Rigged.selector_N |});
    reflexivity.
Defined.

Lemma SelectorDIC_nan_skipped_witness :
  let d : gmap (string * Z) (option Rigged.model * float) :=
    {[ ("N", 2) := (Some {| Rigged.states := 2; Rigged.trained_on := [] |}, nan) ]} in
  SelectorDIC_body (Ext := Rigged.externals) Rigged.selector_N d 2 (neg_infinity, None)
                   Rigged.fresh
  = (Return (neg_infinity, None), Rigged.fresh).
Proof.
  intros d.
  apply (SelectorDIC_nan_skipped (Ext := Rigged.externals) Rigged.selector_N d 2
           (Some {| Rigged.states := 2; Rigged.trained_on := [] |})).
  reflexivity.
Defined.

(** A test item that the model of A scores [nan] and the model of B -3. *)
Lemma recognize_nan_never_guessed_witness :
  let item : SinglesData :=
    {| num_items := 1;
       get_item_Xlengths := fun _ => ([[0]; [0]; [nan]; [-3]]%float, [4]) |} in
  exists probabilities guesses guess,
    recognize (Ext := Rigged.externals) Rigged.two_models item Rigged.fresh
    = (Return (probabilities, guesses), Rigged.fresh) /\
    guesses !! Z.to_nat 0 = Some guess /\
    forall g, guess = Some g -> text g <> text Rigged.word_A.
Proof.
  intros item.
  apply (recognize_nan_never_guessed (Ext := Rigged.externals) Rigged.two_models item
           Rigged.fresh 0 Rigged.word_A).
  - simpl. lia.
  - reflexivity.
Defined.
